(** * SpotShare backend: the parking-space controller

    A shallow embedding of [transformCustomTimes] and
    [findNearbyParkingSpaces] from the parking-space controller, together
    with the JavaScript built-ins they rely on (property reads and
    truthiness, [String.prototype.split], the string-to-number coercion
    behind [isNaN], and the [Date] arithmetic of ECMA-262), followed by the
    properties of the controller that the design document states.

    Conventions.  A JavaScript string is a [string] holding one code unit
    per character (code units below 256).  A [Date] is its time value in
    milliseconds since the epoch, [None] standing for an Invalid Date.
    What ECMA-262 leaves to the host (the local time zone, the parsing of
    date strings outside the standard interchange format) is a field of
    the class [JS.Host]; the store's evaluation of [$centerSphere] is the
    field of the class [Store].

    The other handlers of the parking-space controller and the two
    handlers of the review controller are embedded as programs that
    await their collaborators, with an interpreter over a database of
    documents, and their properties come last. *)

From Stdlib Require Import ZArith QArith String Ascii List Lia.
From stdpp Require Import base option list gmap strings.

#[local] Set Warnings "-register-all,-clear-no-such-hyp".
#[local] Open Scope string_scope.
#[local] Open Scope Z_scope.
#[local] Open Scope list_scope.

(* ================================================================== *)
(** * JavaScript values and built-ins                                  *)
(* ================================================================== *)

Module JS.

(** A number is kept only as far as truthiness needs it: sign, mantissa
    and binary exponent of a finite value, or one of the special values. *)
Inductive number : Type :=
  | NaN
  | Infinity (negative : bool)
  | Finite (negative : bool) (mantissa : N) (exponent : Z).

(** Values as they come out of a JSON body; an array is an object whose
    property names are its indices. *)
Inductive value : Type :=
  | VUndefined
  | VNull
  | VBool (b : bool)
  | VNum (n : number)
  | VStr (s : string)
  | VObj (props : gmap string value).

(** ToBoolean (ECMA-262 7.1.2). *)
Definition toBoolean (v : value) : bool :=
  match v with
  | VUndefined | VNull => false
  | VBool b => b
  | VNum NaN => false
  | VNum (Infinity _) => true
  | VNum (Finite _ m _) => negb (N.eqb m 0)
  | VStr s => negb (String.eqb s "")
  | VObj _ => true
  end.

(** Abrupt completions: the only exception the controller code can raise
    by itself is the TypeError of a property read on null or undefined. *)
Inductive error : Type := TypeError.

Inductive completion (A : Type) : Type :=
  | Normal (a : A)
  | Throw (e : error).
Arguments Normal {A} a.
Arguments Throw {A} e.

#[global] Instance completion_ret : MRet completion := fun _ a => Normal a.
#[global] Instance completion_bind : MBind completion := fun _ _ f m =>
  match m with
  | Normal a => f a
  | Throw e => Throw e
  end.

(** [v[k]] for a property name [k] that is neither an index, nor [length],
    nor a member of a built-in prototype; every name the controller reads
    (the lowercase weekdays, [in], [out]) is of that kind.  Primitives
    other than null and undefined are read through their wrapper and have
    no such property. *)
Definition get (v : value) (k : string) : completion value :=
  match v with
  | VUndefined | VNull => Throw TypeError
  | VBool _ | VNum _ | VStr _ => Normal VUndefined
  | VObj props => Normal (default VUndefined (props !! k))
  end.

(** [String.prototype.toLowerCase] on code units below 256: the ASCII
    capitals and the Latin-1 capitals (all of 192..222 but the
    multiplication sign 215) move up by 32. *)
Definition lowerChar (c : ascii) : ascii :=
  let n := N_of_ascii c in
  if ((65 <=? n) && (n <=? 90))%N
     || ((192 <=? n) && (n <=? 222) && negb (n =? 215))%N
  then ascii_of_N (n + 32) else c.

Fixpoint toLowerCase (s : string) : string :=
  match s with
  | EmptyString => EmptyString
  | String c s' => String (lowerChar c) (toLowerCase s')
  end.

(** [Array.prototype.forEach] with the effect of the callback on the
    enclosing scope made explicit: the callback maps the state before an
    element to the state after it, and an exception stops the loop. *)
Fixpoint forEach {S A : Type} (l : list A) (callback : S → A → completion S)
    (s : S) : completion S :=
  match l with
  | [] => Normal s
  | x :: l' => s' ← callback s x; forEach l' callback s'
  end.

(** [Array.prototype.some]: stops at the first element the callback
    accepts. *)
Fixpoint some {A : Type} (callback : A → bool) (l : list A) : bool :=
  match l with
  | [] => false
  | x :: l' => if callback x then true else some callback l'
  end.

(** [Array.prototype.filter]: a fresh array to which the accepted elements
    are appended in index order. *)
Definition filter {A : Type} (callback : A → bool) (l : list A) : list A :=
  fold_left (fun kept x => if callback x then kept ++ [x] else kept) l [].

(** ** Strings *)

(** [String.prototype.split] with a one-character separator: the pieces
    between the separators, in order; at least one piece. *)
Fixpoint split (sep : ascii) (s : string) : list string :=
  match s with
  | EmptyString => [EmptyString]
  | String c s' =>
      if Ascii.eqb c sep then EmptyString :: split sep s'
      else match split sep s' with
           | piece :: pieces => String c piece :: pieces
           | [] => [String c EmptyString]
           end
  end.

Definition code (c : ascii) : N := N_of_ascii c.

Definition isStrWhiteSpaceChar (c : ascii) : bool :=
  ((code c =? 9) || (code c =? 10) || (code c =? 11) || (code c =? 12)
   || (code c =? 13) || (code c =? 32) || (code c =? 160))%N.

Definition isDecimalDigit (c : ascii) : bool :=
  ((48 <=? code c) && (code c <=? 57))%N.

Definition isBinaryDigit (c : ascii) : bool :=
  ((code c =? 48) || (code c =? 49))%N.

Definition isOctalDigit (c : ascii) : bool :=
  ((48 <=? code c) && (code c <=? 55))%N.

Definition isHexDigit (c : ascii) : bool :=
  (isDecimalDigit c
   || ((65 <=? code c) && (code c <=? 70))
   || ((97 <=? code c) && (code c <=? 102)))%N.

Fixpoint takeWhile {A : Type} (p : A → bool) (l : list A) : list A :=
  match l with
  | [] => []
  | x :: l' => if p x then x :: takeWhile p l' else []
  end.

Fixpoint dropWhile {A : Type} (p : A → bool) (l : list A) : list A :=
  match l with
  | [] => []
  | x :: l' => if p x then dropWhile p l' else l
  end.

Definition nonEmpty {A : Type} (l : list A) : bool :=
  match l with [] => false | _ :: _ => true end.

(** ** StringToNumber (ECMA-262 7.1.4.1)

    Only the question whether the result is NaN matters to the
    controller, that is, whether the string is a StringNumericLiteral. *)

Definition trimWhiteSpace (cs : list ascii) : list ascii :=
  rev (dropWhile isStrWhiteSpaceChar (rev (dropWhile isStrWhiteSpaceChar cs))).

Definition isDigits (digit : ascii → bool) (cs : list ascii) : bool :=
  nonEmpty cs && forallb digit cs.

Definition stripSign (cs : list ascii) : list ascii :=
  match cs with
  | c :: cs' => if Ascii.eqb c "+" || Ascii.eqb c "-" then cs' else cs
  | [] => []
  end.

(** ExponentPart, optional. *)
Definition isExponentPartOpt (cs : list ascii) : bool :=
  match cs with
  | [] => true
  | c :: cs' =>
      (Ascii.eqb c "e" || Ascii.eqb c "E") && isDigits isDecimalDigit (stripSign cs')
  end.

Definition isStrUnsignedDecimalLiteral (cs : list ascii) : bool :=
  if bool_decide (cs = list_ascii_of_string "Infinity") then true
  else
    let intPart := takeWhile isDecimalDigit cs in
    match dropWhile isDecimalDigit cs with
    | c :: cs' =>
        if Ascii.eqb c "." then
          (nonEmpty intPart || nonEmpty (takeWhile isDecimalDigit cs'))
          && isExponentPartOpt (dropWhile isDecimalDigit cs')
        else nonEmpty intPart && isExponentPartOpt (c :: cs')
    | [] => nonEmpty intPart
    end.

Definition isStrDecimalLiteral (cs : list ascii) : bool :=
  isStrUnsignedDecimalLiteral (stripSign cs).

Definition isNonDecimalIntegerLiteral (cs : list ascii) : bool :=
  match cs with
  | zero :: radix :: digits =>
      Ascii.eqb zero "0"
      && (((Ascii.eqb radix "b" || Ascii.eqb radix "B") && isDigits isBinaryDigit digits)
          || ((Ascii.eqb radix "o" || Ascii.eqb radix "O") && isDigits isOctalDigit digits)
          || ((Ascii.eqb radix "x" || Ascii.eqb radix "X") && isDigits isHexDigit digits))
  | _ => false
  end.

(** The strings [Number] maps to a number other than NaN: white space
    alone (which gives 0), or a decimal or non-decimal literal between
    optional white space. *)
Definition isStringNumericLiteral (s : string) : bool :=
  let cs := trimWhiteSpace (list_ascii_of_string s) in
  negb (nonEmpty cs) || isStrDecimalLiteral cs || isNonDecimalIntegerLiteral cs.

(** The global [isNaN] on a string or on [undefined] ([None]), which
    [Number] maps to NaN. *)
Definition isNaN (v : option string) : bool :=
  match v with
  | None => true
  | Some s => negb (isStringNumericLiteral s)
  end.

(** ** Dates (ECMA-262 21.4.1) *)

Definition msPerSecond : Z := 1000.
Definition msPerMinute : Z := 60000.
Definition msPerHour : Z := 3600000.
Definition msPerDay : Z := 86400000.

Definition Day (t : Z) : Z := t / msPerDay.
Definition WeekDay (t : Z) : Z := (Day t + 4) mod 7.
Definition HourFromTime (t : Z) : Z := (t / msPerHour) mod 24.
Definition MinFromTime (t : Z) : Z := (t / msPerMinute) mod 60.

Definition DayFromYear (y : Z) : Z :=
  365 * (y - 1970) + (y - 1969) / 4 - (y - 1901) / 100 + (y - 1601) / 400.

Definition InLeapYear (y : Z) : bool :=
  (y mod 4 =? 0) && (negb (y mod 100 =? 0) || (y mod 400 =? 0)).

(** Months are numbered from 1, as they are written in a date string. *)
Definition DaysInMonth (y m : Z) : Z :=
  if m =? 2 then (if InLeapYear y then 29 else 28)
  else if (m =? 4) || (m =? 6) || (m =? 9) || (m =? 11) then 30
  else 31.

Definition DaysBeforeMonth (y m : Z) : Z :=
  fold_right Z.add 0 (map (DaysInMonth y) (map Z.of_nat (seq 1 (Z.to_nat (m - 1))))).

Definition MakeDay (y m d : Z) : Z := DayFromYear y + DaysBeforeMonth y m + (d - 1).
Definition MakeTime (h m s ms : Z) : Z :=
  h * msPerHour + m * msPerMinute + s * msPerSecond + ms.
Definition MakeDate (day time : Z) : Z := day * msPerDay + time.

(** What the standard leaves to the implementation. *)
Class Host : Type := {
  (** LocalTZA(t, isUTC): the offset of local time from UTC in
      milliseconds, at the UTC instant [t] or at the local time [t]. *)
  LocalTZA : Z → bool → Z;
  (** [Date.parse] on a string that is not in the interchange format. *)
  parseFallback : string → option Z
}.

Definition LocalTime `{Host} (t : Z) : Z := t + LocalTZA t true.
Definition UTC `{Host} (t : Z) : Z := t - LocalTZA t false.

Definition digitValue (c : ascii) : option Z :=
  if isDecimalDigit c then Some (Z.of_N (code c) - 48) else None.

Definition number2 (a b : ascii) : option Z :=
  x ← digitValue a; y ← digitValue b; Some (10 * x + y).

Definition number3 (a b c : ascii) : option Z :=
  x ← digitValue a; y ← number2 b c; Some (100 * x + y).

Definition number4 (a b c d : ascii) : option Z :=
  x ← number2 a b; y ← number2 c d; Some (100 * x + y).

(** [YYYY-MM-DD]: the day number and what follows the date. *)
Definition parseDatePart (cs : list ascii) : option (Z * list ascii) :=
  match cs with
  | y1 :: y2 :: y3 :: y4 :: dash1 :: m1 :: m2 :: dash2 :: d1 :: d2 :: rest =>
      if Ascii.eqb dash1 "-" && Ascii.eqb dash2 "-" then
        y ← number4 y1 y2 y3 y4;
        m ← number2 m1 m2;
        d ← number2 d1 d2;
        if (1 <=? m) && (m <=? 12) && (1 <=? d) && (d <=? DaysInMonth y m)
        then Some (MakeDay y m d, rest) else None
      else None
  | _ => None
  end.

(** [:ss] and [.sss] after [HH:mm], both optional. *)
Definition parseSeconds (cs : list ascii) : option (Z * Z * list ascii) :=
  match cs with
  | colon :: s1 :: s2 :: rest =>
      if Ascii.eqb colon ":" then
        s ← number2 s1 s2;
        match rest with
        | dot :: f1 :: f2 :: f3 :: rest' =>
            if Ascii.eqb dot "." then
              ms ← number3 f1 f2 f3; Some (s, ms, rest')
            else Some (s, 0, rest)
        | _ => Some (s, 0, rest)
        end
      else Some (0, 0, cs)
  | _ => Some (0, 0, cs)
  end.

(** [HH:mm[:ss[.sss]]]: milliseconds within the day and what follows;
    hour 24 is the end of the day and allows no minutes or seconds. *)
Definition parseTimePart (cs : list ascii) : option (Z * list ascii) :=
  match cs with
  | h1 :: h2 :: colon :: m1 :: m2 :: rest =>
      if Ascii.eqb colon ":" then
        h ← number2 h1 h2;
        m ← number2 m1 m2;
        '(s, ms, rest') ← parseSeconds rest;
        if ((h <=? 23) && (m <=? 59) && (s <=? 59))
           || ((h =? 24) && (m =? 0) && (s =? 0) && (ms =? 0))
        then Some (MakeTime h m s ms, rest') else None
      else None
  | _ => None
  end.

(** The UTC offset: absent (local time), [Z], or [+HH:mm] / [-HH:mm]. *)
Definition parseOffset (cs : list ascii) : option (option Z) :=
  match cs with
  | [] => Some None
  | [z] => if Ascii.eqb z "Z" then Some (Some 0) else None
  | [sign; h1; h2; colon; m1; m2] =>
      if Ascii.eqb colon ":" then
        sg ← (if Ascii.eqb sign "+" then Some 1
              else if Ascii.eqb sign "-" then Some (-1) else None);
        h ← number2 h1 h2;
        m ← number2 m1 m2;
        if (h <=? 23) && (m <=? 59)
        then Some (Some (sg * (h * msPerHour + m * msPerMinute))) else None
      else None
  | _ => None
  end.

(** The date-time interchange format (ECMA-262 21.4.1.32) with a
    four-digit year and a full date: the time as written and its offset,
    [None] for a date-time without one.  A date alone is UTC. *)
Definition parseInterchange (s : string) : option (Z * option Z) :=
  '(d, rest) ← parseDatePart (list_ascii_of_string s);
  match rest with
  | [] => Some (MakeDate d 0, Some 0)
  | t :: rest' =>
      if Ascii.eqb t "T" then
        '(tm, rest'') ← parseTimePart rest';
        off ← parseOffset rest'';
        Some (MakeDate d tm, off)
      else None
  end.

(** [Date.parse]: a string in the interchange format has the meaning the
    standard gives it, any other the host's. *)
Definition Date_parse `{Host} (s : string) : option Z :=
  match parseInterchange s with
  | Some (t, Some off) => Some (t - off)
  | Some (t, None) => Some (UTC t)
  | None => parseFallback s
  end.

(** [new Date(v)] for a string or [undefined]. *)
Definition newDate `{Host} (v : option string) : option Z :=
  match v with
  | None => None
  | Some s => Date_parse s
  end.

(** [a >= b] and [a <= b] on Date objects compare the time values and are
    false when one of them is NaN. *)
Definition date_ge (a b : option Z) : bool :=
  match a, b with
  | Some x, Some y => y <=? x
  | _, _ => false
  end.

Definition date_le (a b : option Z) : bool :=
  match a, b with
  | Some x, Some y => x <=? y
  | _, _ => false
  end.

Definition weekdayNames : list string :=
  ["Sunday"; "Monday"; "Tuesday"; "Wednesday"; "Thursday"; "Friday"; "Saturday"].

(** [d.toLocaleString('en-US', { weekday: 'long' })] of a valid date. *)
Definition toLocaleWeekday `{Host} (t : Z) : string :=
  default "" (weekdayNames !! Z.to_nat (WeekDay (LocalTime t))).

Definition digitChar (d : Z) : ascii := ascii_of_N (48 + Z.to_N d).

Definition pad2 (n : Z) : string :=
  String (digitChar (n / 10)) (String (digitChar (n mod 10)) EmptyString).

(** [d.toTimeString().slice(0, 5)] of a valid date: local [HH:mm]. *)
Definition toTimeString_slice5 `{Host} (t : Z) : string :=
  pad2 (HourFromTime (LocalTime t)) +:+ ":" +:+ pad2 (MinFromTime (LocalTime t)).

End JS.

(* ================================================================== *)
(** * The schedule normalizer                                          *)
(* ================================================================== *)

(** One entry of [daysAvailable]: [{ day, fromTime, toTime }].  The
    normalizer fills the two times with whatever values the request body
    carried ([T := JS.value]); a stored record carries clock strings
    ([T := string]). *)
Record Slot (T : Type) : Type := mkSlot {
  day : string;
  fromTime : T;
  toTime : T
}.
Arguments mkSlot {T} day fromTime toTime.
Arguments day {T} s.
Arguments fromTime {T} s.
Arguments toTime {T} s.

Definition daysOfWeek : list string :=
  ["Monday"; "Tuesday"; "Wednesday"; "Thursday"; "Friday"; "Saturday"; "Sunday"].

(** The body of the [forEach] callback of [transformCustomTimes]; the
    state is the local array [availability]. *)
Definition pushIfOpen (customTimes : JS.value) (availability : list (Slot JS.value))
    (day : string) : JS.completion (list (Slot JS.value)) :=
  entry ← JS.get customTimes (JS.toLowerCase day);
  if JS.toBoolean entry then
    entryIn ← JS.get customTimes (JS.toLowerCase day);
    fromTime ← JS.get entryIn "in";
    entryOut ← JS.get customTimes (JS.toLowerCase day);
    toTime ← JS.get entryOut "out";
    mret (availability ++ [mkSlot day fromTime toTime])
  else mret availability.

Definition transformCustomTimes (customTimes : JS.value)
    : JS.completion (list (Slot JS.value)) :=
  JS.forEach daysOfWeek (pushIfOpen customTimes) [].

(** A schedule in the documented input format: a map from day names to
    entry objects, seen as the JavaScript object it is. *)
Definition scheduleObject (schedule : gmap string (gmap string JS.value)) : JS.value :=
  JS.VObj (JS.VObj <$> schedule).

(** The property [k] of an entry object, [undefined] when it has none. *)
Definition field (entry : gmap string JS.value) (k : string) : JS.value :=
  default JS.VUndefined (entry !! k).

(** The property [k] of a truthy value: that of an object, [undefined]
    on a primitive. *)
Definition fieldOf (entry : JS.value) (k : string) : JS.value :=
  match entry with
  | JS.VObj props => field props k
  | _ => JS.VUndefined
  end.

(** The slot a weekday gives rise to in an object: none when the object
    has no property of that lowercase name or a falsy one. *)
Definition openSlot (props : gmap string JS.value) (d : string) : option (Slot JS.value) :=
  entry ← props !! JS.toLowerCase d;
  if JS.toBoolean entry then Some (mkSlot d (fieldOf entry "in") (fieldOf entry "out"))
  else None.

(** Two inputs that read the same under each of the seven weekday keys. *)
Definition sameWeek (c1 c2 : JS.value) : Prop :=
  ∀ d, d ∈ daysOfWeek → JS.get c1 (JS.toLowerCase d) = JS.get c2 (JS.toLowerCase d).

(* ================================================================== *)
(** * The store                                                        *)
(* ================================================================== *)

(** A parking-space document as [find(...).lean()] returns it, with the
    fields the search reads; [availableFrom] is the time value of the
    stored date, [coordinates] is the stored [[lng, lat]] pair. *)
Record ParkingSpace : Type := mkParkingSpace {
  _id : string;
  coordinates : Q * Q;
  availableFrom : Z;
  isAvailable : bool;
  daysAvailable : list (Slot string)
}.

(** The filter document handed to [ParkingSpace.find]. *)
Record FindQuery : Type := mkFindQuery {
  (** [$geoWithin: { $centerSphere: [center, radius] }] on [coordinates];
      the centre is [[lng, lat]] as the controller passes it. *)
  centerSphere : (option string * option string) * Q;
  (** [availableFrom: { $lte: ... }] *)
  availableFrom_lte : Z;
  (** [isAvailable: ...] *)
  isAvailable_eq : bool
}.

Class Store : Type := {
  (** Whether a stored coordinate lies in the spherical cap with the
      given centre and radius (in radians). *)
  withinCenterSphere : option string * option string → Q → Q * Q → bool
}.

(** The documents of a collection that a filter document selects: all
    three conditions must hold. *)
Definition selects `{Store} (q : FindQuery) (p : ParkingSpace) : bool :=
  withinCenterSphere (centerSphere q).1 (centerSphere q).2 (coordinates p)
  && (availableFrom p <=? availableFrom_lte q)
  && Bool.eqb (isAvailable p) (isAvailable_eq q).

(** [find] answers with the selected documents in the collection's own
    order. *)
Definition find `{Store} (collection : list ParkingSpace) (q : FindQuery)
    : list ParkingSpace :=
  List.filter (selects q) collection.

(* ================================================================== *)
(** * The nearby search                                                *)
(* ================================================================== *)

(** [req.query] of the search route. *)
Record Request : Type := mkRequest {
  location : option string;
  timeIn : option string;
  timeOut : option string
}.

Inductive Body : Type :=
  | ErrorBody (error : string)
  | SpacesBody (spaces : list ParkingSpace).

(** [res.status(status).json(body)] *)
Inductive Response : Type :=
  | Json (status : Z) (body : Body).

(** What a handler does: it answers, or it awaits one [find] on the
    parking-space collection and goes on with the documents found. *)
Inductive Handler : Type :=
  | Respond (r : Response)
  | AwaitFind (q : FindQuery) (next : list ParkingSpace → Handler).

(** [5 / 6378.1], the search radius in radians: five kilometres over
    the radius of the earth.  The quotient is kept exact; the number the
    code passes is the double nearest to it. *)
Definition searchRadius : Q := 5 / 6378.1.

(** [`1970-01-01T${clock}:00`] made a Date. *)
Definition epochDate `{JS.Host} (clock : string) : option Z :=
  JS.newDate (Some ("1970-01-01T" +:+ clock +:+ ":00")).

(** The callback of [daysAvailable.some]. *)
Definition slotCovers `{JS.Host} (queryDay : string) (timeInDate timeOutDate : Z)
    (slot : Slot string) : bool :=
  if String.eqb (day slot) queryDay then
    let fromTime := epochDate (fromTime slot) in
    let toTime := epochDate (toTime slot) in
    let startReservation := epochDate (JS.toTimeString_slice5 timeInDate) in
    let endReservation := epochDate (JS.toTimeString_slice5 timeOutDate) in
    JS.date_ge startReservation fromTime && JS.date_le endReservation toTime
  else false.

(** The callback of [parkingSpaces.filter]. *)
Definition isOpenFor `{JS.Host} (timeInDate timeOutDate : Z)
    (parkingSpace : ParkingSpace) : bool :=
  let queryDay := JS.toLocaleWeekday timeInDate in
  JS.some (slotCovers queryDay timeInDate timeOutDate) (daysAvailable parkingSpace).

Definition findNearbyParkingSpaces `{JS.Host} (req : Request) : Handler :=
  match location req with
  | None | Some EmptyString =>
      Respond (Json 400 (ErrorBody "Location is required"))
  | Some location =>
      let parts := JS.split "," location in
      let lat := parts !! 0%nat in
      let lng := parts !! 1%nat in
      if JS.isNaN lat || JS.isNaN lng then
        Respond (Json 400 (ErrorBody "Invalid location format"))
      else
        match JS.newDate (timeIn req), JS.newDate (timeOut req) with
        | Some timeInDate, Some timeOutDate =>
            AwaitFind
              {| centerSphere := ((lng, lat), searchRadius);
                 availableFrom_lte := timeInDate;
                 isAvailable_eq := true |}
              (fun parkingSpaces =>
                 let filteredParkingSpaces :=
                   JS.filter (isOpenFor timeInDate timeOutDate) parkingSpaces in
                 Respond (Json 200 (SpacesBody filteredParkingSpaces)))
        | _, _ => Respond (Json 400 (ErrorBody "Invalid date format"))
        end
  end.

(** A handler run against a collection. *)
Fixpoint serve `{Store} (collection : list ParkingSpace) (h : Handler) : Response :=
  match h with
  | Respond r => r
  | AwaitFind q next => serve collection (next (find collection q))
  end.

(** Whether a handler answers without asking the store. *)
Definition answersDirectly (h : Handler) : option Response :=
  match h with
  | Respond r => Some r
  | AwaitFind _ _ => None
  end.

(** The four ways through the handler, each with what the request must
    be like to take it. *)
Inductive searchOutcome `{JS.Host} (req : Request) : Handler → Prop :=
  | NoLocation :
      location req = None ∨ location req = Some "" →
      searchOutcome req (Respond (Json 400 (ErrorBody "Location is required")))
  | BadLocation (origin : string) :
      location req = Some origin → origin ≠ "" →
      JS.isNaN (JS.split "," origin !! 0%nat) = true
      ∨ JS.isNaN (JS.split "," origin !! 1%nat) = true →
      searchOutcome req (Respond (Json 400 (ErrorBody "Invalid location format")))
  | BadDate (origin : string) :
      location req = Some origin → origin ≠ "" →
      JS.isNaN (JS.split "," origin !! 0%nat) = false →
      JS.isNaN (JS.split "," origin !! 1%nat) = false →
      JS.newDate (timeIn req) = None ∨ JS.newDate (timeOut req) = None →
      searchOutcome req (Respond (Json 400 (ErrorBody "Invalid date format")))
  | Query (origin lat lng : string) (timeInDate timeOutDate : Z) :
      location req = Some origin → origin ≠ "" →
      JS.split "," origin !! 0%nat = Some lat →
      JS.split "," origin !! 1%nat = Some lng →
      JS.isStringNumericLiteral lat = true →
      JS.isStringNumericLiteral lng = true →
      JS.newDate (timeIn req) = Some timeInDate →
      JS.newDate (timeOut req) = Some timeOutDate →
      searchOutcome req
        (AwaitFind
           {| centerSphere := ((Some lng, Some lat), searchRadius);
              availableFrom_lte := timeInDate;
              isAvailable_eq := true |}
           (λ parkingSpaces,
              Respond (Json 200 (SpacesBody
                (JS.filter (isOpenFor timeInDate timeOutDate) parkingSpaces))))).

(** A request the search turns down: no origin or an empty one, a first
    or second component of the origin that is missing or that [Number]
    maps to NaN, or a timestamp that makes an Invalid Date. *)
Definition malformed `{JS.Host} (req : Request) : Prop :=
  location req = None ∨ location req = Some ""
  ∨ (∃ origin, location req = Some origin
       ∧ (JS.isNaN (JS.split "," origin !! 0%nat) = true
          ∨ JS.isNaN (JS.split "," origin !! 1%nat) = true))
  ∨ JS.newDate (timeIn req) = None ∨ JS.newDate (timeOut req) = None.

(** ** Clock times

    The data model's reading of a slot time: [HH:MM] with two digits
    each, from 00:00 to 23:59, or 24:00; in minutes since midnight. *)
Definition clockMinutes (s : string) : option Z :=
  match list_ascii_of_string s with
  | [h1; h2; colon; m1; m2] =>
      if Ascii.eqb colon ":" then
        h ← JS.number2 h1 h2;
        m ← JS.number2 m1 m2;
        if ((h <=? 23) && (m <=? 59)) || ((h =? 24) && (m =? 0))
        then Some (60 * h + m) else None
      else None
  | _ => None
  end.

(** The time of day of an instant, in local minutes since midnight. *)
Definition minuteOfDay `{JS.Host} (t : Z) : Z :=
  60 * JS.HourFromTime (JS.LocalTime t) + JS.MinFromTime (JS.LocalTime t).

(** A host whose local time keeps one offset through 1 January 1970. *)
Definition epochDayUniform `{JS.Host} : Prop :=
  ∀ t, 0 <= t <= JS.msPerDay → JS.LocalTZA t false = JS.LocalTZA 0 false.

(** A stored slot whose two times are clock times. *)
Definition clockSlot (slot : Slot string) : Prop :=
  is_Some (clockMinutes (fromTime slot)) ∧ is_Some (clockMinutes (toTime slot)).

(** The matching condition of the design document: the slot is for the
    given weekday, opens no later than the start minute and closes no
    earlier than the end minute. *)
Definition covers (slot : Slot string) (weekday : string) (startMinute endMinute : Z) : Prop :=
  day slot = weekday
  ∧ ∃ opens closes,
      clockMinutes (fromTime slot) = Some opens
      ∧ clockMinutes (toTime slot) = Some closes
      ∧ opens <= startMinute ∧ endMinute <= closes.

(** ** Hosts and stores to compute with *)

(** A host at a fixed offset from UTC (in milliseconds) that parses the
    interchange format only. *)
Definition fixedOffsetHost (offset : Z) : JS.Host :=
  {| JS.LocalTZA := fun _ _ => offset; JS.parseFallback := fun _ => None |}.

Definition utcHost : JS.Host := fixedOffsetHost 0.

(** A store that takes every coordinate to be in range. *)
Definition everywhereStore : Store :=
  {| withinCenterSphere := fun _ _ _ => true |}.

(** ** Sample data *)

Definition mondayOffice : Slot string := mkSlot "Monday" "09:00" "17:00".
Definition mondayNight : Slot string := mkSlot "Monday" "17:00" "09:00".
Definition wednesdayLong : Slot string := mkSlot "Wednesday" "08:00" "20:00".

Definition garage (slots : list (Slot string)) : ParkingSpace :=
  {| _id := "garage"; coordinates := ((-122.42)%Q, 37.77%Q);
     availableFrom := 1704067200000; isAvailable := true;
     daysAvailable := slots |}.

(** Time values of instants in January 2024 (UTC); the 1st is a Monday. *)
Definition monday0800 : Z := 1704096000000.
Definition monday1000 : Z := 1704103200000.
Definition monday1200 : Z := 1704110400000.
Definition monday1800 : Z := 1704132000000.
Definition tuesday0800 : Z := 1704182400000.
Definition friday1200 : Z := 1704456000000.

(** Requests for Monday 10:00 to 12:00 from various origins. *)
Definition mondayMorningAt (origin : string) : Request :=
  {| location := Some origin;
     timeIn := Some "2024-01-01T10:00:00Z";
     timeOut := Some "2024-01-01T12:00:00Z" |}.

(** A record that is switched off, and one that opens later in 2024
    (1 March 2024, 00:00 UTC). *)
Definition switchedOff : ParkingSpace :=
  {| _id := "off"; coordinates := ((-122.42)%Q, 37.77%Q);
     availableFrom := 1704067200000; isAvailable := false;
     daysAvailable := [mondayOffice] |}.

Definition opensInMarch : ParkingSpace :=
  {| _id := "march"; coordinates := ((-122.42)%Q, 37.77%Q);
     availableFrom := 1709251200000; isAvailable := true;
     daysAvailable := [mondayOffice] |}.

Definition sampleCollection : list ParkingSpace :=
  [switchedOff; garage [mondayOffice]; opensInMarch; garage [mondayNight]].

(** A request from Monday 10:00 to the Friday after, 12:00. *)
Definition mondayToFriday : Request :=
  {| location := Some "37.77,-122.42";
     timeIn := Some "2024-01-01T10:00:00Z";
     timeOut := Some "2024-01-05T12:00:00Z" |}.

Definition nineToFive : gmap string JS.value :=
  {[ "in" := JS.VStr "09:00"; "out" := JS.VStr "17:00" ]}.

(** [{ monday: { in: "09:00", out: "17:00" } }] *)
Definition mondayOnly : JS.value :=
  JS.VObj {[ "monday" := JS.VObj nineToFive ]}.

(** [{ monday: null, tuesday: "", friday: { in: "09:00", out: "17:00" } }] *)
Definition fridayAmongBlanks : JS.value :=
  JS.VObj {[ "monday" := JS.VNull; "tuesday" := JS.VStr "";
             "friday" := JS.VObj nineToFive ]}.

(** The same week with a property the normalizer does not read. *)
Definition mondayWithNote : JS.value :=
  JS.VObj {[ "monday" := JS.VObj nineToFive; "note" := JS.VStr "gate code 42" ]}.

(* ================================================================== *)
(** * The other handlers of the two controllers                        *)
(* ================================================================== *)

(** The handlers besides the search: [createParkingSpace],
    [getParkingSpaces], [uploadSpotImages] and [getParkingSpaceById] of
    the parking-space controller, [createReview] and [getReviews] of the
    review controller.  A handler is a [Program]: it sends a response,
    throws, or awaits one call to a collaborator (a model, the geocoder,
    the image host) and goes on with the answer.  The review handlers
    catch what is thrown and pass it to [next]; the others leave it to
    [asyncHandler]; both are the leaf [Throw]. *)

Definition ObjectId : Type := string.

(** [new APIError(statusCode, message)], or an exception of the
    language. *)
Inductive Failure : Type :=
  | APIError (statusCode : Z) (message : string)
  | Uncaught (e : JS.error).

(** [new APIResponse(first, second, third)]: the arguments in the order
    in which the handler gives them. *)
Record APIResponse (A B : Type) : Type := mkAPIResponse {
  first : Z;
  second : A;
  third : B
}.
Arguments mkAPIResponse {A B} first second third.
Arguments first {A B} a.
Arguments second {A B} a.
Arguments third {A B} a.

(** A user document; the handlers read its [_id] only. *)
Module User.
Record t : Type := mk { _id : ObjectId }.
End User.

(** The fields [createParkingSpace] hands to [new ParkingSpace(...)]. *)
Module NewSpace.
Record t : Type := mk {
  owner : ObjectId;
  address : JS.value;
  coordinates : JS.value * JS.value;
  spotType : JS.value;
  vehicleSize : JS.value;
  spacesToRent : JS.value;
  title : JS.value;
  description : JS.value;
  accessInstructions : JS.value;
  spotImages : list JS.value;
  pricePerHour : JS.value;
  pricePerDay : JS.value;
  pricePerMonth : JS.value;
  availableFrom : JS.value;
  daysAvailable : list (Slot JS.value);
  reservations : list ObjectId
}.
End NewSpace.

(** A parking-space document as the other handlers read it: what the
    search reads, and the ids of its reviews. *)
Module Listing.
Record t : Type := mk {
  details : ParkingSpace;
  reviews : list ObjectId
}.
Definition id (l : t) : ObjectId := _id (details l).
End Listing.

(** A reservation document with the fields [createReview] reads and
    writes; [endTime] is the time value of the stored date, [None] when
    the document has none. *)
Module Reservation.
Record t : Type := mk {
  _id : ObjectId;
  endTime : option Z;
  review : option ObjectId;
  status : string
}.
End Reservation.

(** The fields [createReview] hands to [new Review(...)], with the
    [_id] the constructor draws. *)
Module Review.
Record t : Type := mk {
  _id : ObjectId;
  user : ObjectId;
  parkingSpace : string;
  reservation : string;
  rating : JS.value;
  comment : JS.value
}.
End Review.

(** The filter of [User.findOne]. *)
Inductive UserFilter : Type :=
  | ByEmail (email : JS.value)
  | ByUid (uid : JS.value).

Inductive Program (R : Type) : Type :=
  (** [res.status(status).json(body)] *)
  | Send (status : Z) (body : R)
  (** [throw e], or [next(e)] in a catch clause *)
  | Throw (e : Failure)
  (** [await User.findOne(filter)] *)
  | FindUser (filter : UserFilter) (next : option User.t → Program R)
  (** [await getCoordinates(address)] *)
  | GetCoordinates (address : JS.value) (next : JS.value → Program R)
  (** [await uploadOnCloudinary(path)] *)
  | Upload (path : JS.value) (next : JS.value → Program R)
  (** [await newParkingSpace.save()] *)
  | SaveNewSpace (doc : NewSpace.t) (next : Program R)
  (** [await ParkingSpace.find()] *)
  | FindListings (next : list Listing.t → Program R)
  (** [await ParkingSpace.findById(id)] *)
  | FindListing (id : string) (next : option Listing.t → Program R)
  (** [await ParkingSpace.findById(id).populate("reviews")] *)
  | FindListingWithReviews (id : string)
      (next : option (Listing.t * list Review.t) → Program R)
  (** [await Reservation.findById(id)] *)
  | FindReservation (id : string) (next : option Reservation.t → Program R)
  (** [new Date()] *)
  | Now (next : Z → Program R)
  (** the [_id] of a [new Review(...)] *)
  | NewReviewId (next : ObjectId → Program R)
  (** [await review.save()] *)
  | SaveReview (doc : Review.t) (next : Program R)
  (** [await parkingSpace.save()] *)
  | SaveListing (doc : Listing.t) (next : Program R)
  (** [await reservation.save()] *)
  | SaveReservation (doc : Reservation.t) (next : Program R).
Arguments Send {R} status body.
Arguments Throw {R} e.
Arguments FindUser {R} filter next.
Arguments GetCoordinates {R} address next.
Arguments Upload {R} path next.
Arguments SaveNewSpace {R} doc next.
Arguments FindListings {R} next.
Arguments FindListing {R} id next.
Arguments FindListingWithReviews {R} id next.
Arguments FindReservation {R} id next.
Arguments Now {R} next.
Arguments NewReviewId {R} next.
Arguments SaveReview {R} doc next.
Arguments SaveListing {R} doc next.
Arguments SaveReservation {R} doc next.

(** An expression of the language inside a handler: its exception is
    the handler's. *)
Definition eval {A R : Type} (c : JS.completion A) (next : A → Program R) : Program R :=
  match c with
  | JS.Normal a => next a
  | JS.Throw e => Throw (Uncaught e)
  end.

(** [field === ""] *)
Definition isEmptyString (field : JS.value) : bool :=
  match field with
  | JS.VStr s => String.eqb s ""
  | _ => false
  end.

(** [array.map(image => image.url)]: the [url] of each element in
    turn, up to the first element that is null or undefined. *)
Fixpoint mapUrl (images : list JS.value) : JS.completion (list JS.value) :=
  match images with
  | [] => JS.Normal []
  | image :: images' =>
      url ← JS.get image "url"; urls ← mapUrl images'; mret (url :: urls)
  end.

(** ** The parking-space controller *)

(** [req.body] of the creation route.  [spotImages] is taken to be an
    array, which is never [=== ""]; every other field is any value,
    [undefined] when the body lacks it. *)
Module Body.
Record t : Type := mk {
  owner : JS.value;
  address : JS.value;
  spotType : JS.value;
  vehicleSize : JS.value;
  spacesToRent : JS.value;
  title : JS.value;
  description : JS.value;
  accessInstructions : JS.value;
  spotImages : list JS.value;
  pricePerHour : JS.value;
  pricePerDay : JS.value;
  pricePerMonth : JS.value;
  availableFrom : JS.value;
  customTimes : JS.value
}.
End Body.

(** The fields that the required-field test compares with [""], in the
    order of the array literal, but for [spotImages] (an array). *)
Definition requiredFields (body : Body.t) : list JS.value :=
  [Body.owner body; Body.address body; Body.spotType body; Body.vehicleSize body;
   Body.spacesToRent body; Body.title body; Body.description body;
   Body.pricePerHour body; Body.pricePerDay body; Body.pricePerMonth body;
   Body.availableFrom body; Body.customTimes body].

Definition createParkingSpace (body : Body.t)
    : Program (APIResponse NewSpace.t string) :=
  if JS.some isEmptyString (requiredFields body) then
    Throw (APIError 400 "All fields are required")
  else if (6 <? length (Body.spotImages body))%nat then
    Throw (APIError 400 "You can only upload a maximum of 6 images")
  else
    FindUser (ByEmail (Body.owner body)) (λ user,
      match user with
      | None => Throw (APIError 400 "Owner not found")
      | Some user =>
          GetCoordinates (Body.address body) (λ found,
            eval (JS.get found "lat") (λ lat,
            eval (JS.get found "lng") (λ lng,
            let coordinates := (lng, lat) in
            eval (transformCustomTimes (Body.customTimes body)) (λ daysAvailable,
            eval (mapUrl (Body.spotImages body)) (λ urls,
            let newParkingSpace :=
              {| NewSpace.owner := User._id user;
                 NewSpace.address := Body.address body;
                 NewSpace.coordinates := coordinates;
                 NewSpace.spotType := Body.spotType body;
                 NewSpace.vehicleSize := Body.vehicleSize body;
                 NewSpace.spacesToRent := Body.spacesToRent body;
                 NewSpace.title := Body.title body;
                 NewSpace.description := Body.description body;
                 NewSpace.accessInstructions := Body.accessInstructions body;
                 NewSpace.spotImages := urls;
                 NewSpace.pricePerHour := Body.pricePerHour body;
                 NewSpace.pricePerDay := Body.pricePerDay body;
                 NewSpace.pricePerMonth := Body.pricePerMonth body;
                 NewSpace.availableFrom := Body.availableFrom body;
                 NewSpace.daysAvailable := daysAvailable;
                 NewSpace.reservations := [] |} in
            SaveNewSpace newParkingSpace
              (Send 201 (mkAPIResponse 201 newParkingSpace
                           "Parking space created successfully")))))))
      end).

Definition getParkingSpaces : Program (APIResponse (list Listing.t) string) :=
  FindListings (λ parkingSpaces,
    Send 200 (mkAPIResponse 200 parkingSpaces "Parking spaces retrieved successfully")).

(** The loop of [uploadSpotImages] over the files still to upload;
    [spotImages] holds the addresses collected so far. *)
Fixpoint uploadEach (files : list JS.value) (spotImages : list JS.value)
    : Program (APIResponse (list JS.value) string) :=
  match files with
  | [] => Send 200 (mkAPIResponse 200 spotImages "Images uploaded successfully")
  | file :: files' =>
      eval (JS.get file "path") (λ path,
        Upload path (λ result,
          eval (JS.get result "secure_url") (λ secure_url,
            uploadEach files' (spotImages ++ [secure_url]))))
  end.

(** [req.files] is taken to be an array. *)
Definition uploadSpotImages (files : list JS.value)
    : Program (APIResponse (list JS.value) string) :=
  uploadEach files [].

Definition getParkingSpaceById (id : string) : Program (APIResponse Listing.t string) :=
  FindListing id (λ parkingSpace,
    match parkingSpace with
    | None => Throw (APIError 404 "Parking space not found")
    | Some parkingSpace =>
        Send 200 (mkAPIResponse 200 parkingSpace "Parking space retrieved successfully")
    end).

(** ** The review controller *)

(** What [createReview] reads of the request: the two route parameters,
    [req.body] and [req.user]. *)
Module ReviewRequest.
Record t : Type := mk {
  parkingId : string;
  reservationId : string;
  body : JS.value;
  user : JS.value
}.
End ReviewRequest.

(** [a > b] on two dates, false when one of them is missing. *)
Definition date_gt (a b : option Z) : bool :=
  match a, b with
  | Some x, Some y => y <? x
  | _, _ => false
  end.

Definition createReview (req : ReviewRequest.t) : Program (APIResponse string Review.t) :=
  let parkingId := ReviewRequest.parkingId req in
  let reservationId := ReviewRequest.reservationId req in
  eval (JS.get (ReviewRequest.body req) "rating") (λ rating,
  eval (JS.get (ReviewRequest.body req) "comment") (λ comment,
  eval (JS.get (ReviewRequest.user req) "uid") (λ uid,
  FindUser (ByUid uid) (λ user,
    match user with
    | None => Throw (APIError 404 "User not found")
    | Some user =>
        FindListing parkingId (λ parkingSpace,
          match parkingSpace with
          | None => Throw (APIError 404 "Parking space not found")
          | Some parkingSpace =>
              FindReservation reservationId (λ reservation,
                match reservation with
                | None => Throw (APIError 404 "Reservation not found")
                | Some reservation =>
                    Now (λ now,
                      if date_gt (Reservation.endTime reservation) (Some now) then
                        Throw (APIError 400 "Reservation has not ended yet")
                      else
                        NewReviewId (λ id,
                          let review :=
                            {| Review._id := id;
                               Review.user := User._id user;
                               Review.parkingSpace := parkingId;
                               Review.reservation := reservationId;
                               Review.rating := rating;
                               Review.comment := comment |} in
                          SaveReview review
                            (SaveListing
                               {| Listing.details := Listing.details parkingSpace;
                                  Listing.reviews :=
                                    Listing.reviews parkingSpace ++ [Review._id review] |}
                               (SaveReservation
                                  {| Reservation._id := Reservation._id reservation;
                                     Reservation.endTime := Reservation.endTime reservation;
                                     Reservation.review := Some (Review._id review);
                                     Reservation.status := "Completed" |}
                                  (Send 201
                                     (mkAPIResponse 201 "Review created successfully"
                                        review))))))
                end)
          end)
    end)))).

Definition getReviews (spotId : string) : Program (APIResponse string (list Review.t)) :=
  FindListingWithReviews spotId (λ parkingSpace,
    match parkingSpace with
    | None => Throw (APIError 404 "Parking space not found")
    | Some (_, reviews) =>
        Send 200 (mkAPIResponse 200 "Reviews retrieved successfully" reviews)
    end).


(** ** Running a handler

    The collaborators: what answers without a state of its own is a
    field of [Services]; the collections the review controller reads and
    writes make up the [Database].  Any call to a collaborator can fail
    (the store or the network is down, a save does not validate, an id
    does not cast); [outage] says which ones do, and a call that fails
    ends the handler with that failure.  The [journal] keeps the calls
    in the order in which they were made. *)

Inductive Call : Type :=
  | CallFindUser (filter : UserFilter)
  | CallGetCoordinates (address : JS.value)
  | CallUpload (path : JS.value)
  | CallSaveNewSpace (doc : NewSpace.t)
  | CallFindListings
  | CallFindListing (id : string)
  | CallFindListingWithReviews (id : string)
  | CallFindReservation (id : string)
  | CallSaveReview (doc : Review.t)
  | CallSaveListing (doc : Listing.t)
  | CallSaveReservation (doc : Reservation.t).

Record Services : Type := mkServices {
  users : UserFilter → option User.t;
  geocoder : JS.value → JS.value;
  cloudinary : JS.value → JS.value;
  clock : Z;
  objectIds : nat → ObjectId;
  outage : Call → option string
}.

Record Database : Type := mkDatabase {
  listings : gmap ObjectId Listing.t;
  reservations : gmap ObjectId Reservation.t;
  reviews : gmap ObjectId Review.t;
  newSpaces : list NewSpace.t;
  issued : nat;
  journal : list Call
}.

Inductive Outcome (R : Type) : Type :=
  | Sent (status : Z) (body : R)
  | Thrown (e : Failure)
  | Rejected (reason : string).
Arguments Sent {R} status body.
Arguments Thrown {R} e.
Arguments Rejected {R} reason.

Definition record (c : Call) (db : Database) : Database :=
  mkDatabase (listings db) (reservations db) (reviews db) (newSpaces db)
    (issued db) (journal db ++ [c]).

Definition putNewSpace (doc : NewSpace.t) (db : Database) : Database :=
  mkDatabase (listings db) (reservations db) (reviews db) (newSpaces db ++ [doc])
    (issued db) (journal db).

Definition putReview (doc : Review.t) (db : Database) : Database :=
  mkDatabase (listings db) (reservations db) (<[Review._id doc := doc]> (reviews db))
    (newSpaces db) (issued db) (journal db).

Definition putListing (doc : Listing.t) (db : Database) : Database :=
  mkDatabase (<[Listing.id doc := doc]> (listings db)) (reservations db) (reviews db)
    (newSpaces db) (issued db) (journal db).

Definition putReservation (doc : Reservation.t) (db : Database) : Database :=
  mkDatabase (listings db) (<[Reservation._id doc := doc]> (reservations db)) (reviews db)
    (newSpaces db) (issued db) (journal db).

Definition drawId (db : Database) : Database :=
  mkDatabase (listings db) (reservations db) (reviews db) (newSpaces db)
    (S (issued db)) (journal db).

(** [populate("reviews")]: the review documents of the ids, in order;
    an id without a document is left out. *)
Definition populate (db : Database) (ids : list ObjectId) : list Review.t :=
  omap (λ id, reviews db !! id) ids.

Fixpoint exec {R : Type} (sv : Services) (p : Program R) (db : Database)
    : Outcome R * Database :=
  let attempt (c : Call) (go : Database → Outcome R * Database) :=
    match outage sv c with
    | Some reason => (Rejected reason, record c db)
    | None => go (record c db)
    end in
  match p with
  | Send status body => (Sent status body, db)
  | Throw e => (Thrown e, db)
  | FindUser filter next =>
      attempt (CallFindUser filter) (exec sv (next (users sv filter)))
  | GetCoordinates address next =>
      attempt (CallGetCoordinates address) (exec sv (next (geocoder sv address)))
  | Upload path next =>
      attempt (CallUpload path) (exec sv (next (cloudinary sv path)))
  | SaveNewSpace doc next =>
      attempt (CallSaveNewSpace doc) (λ db', exec sv next (putNewSpace doc db'))
  | FindListings next =>
      attempt CallFindListings
        (exec sv (next (map snd (map_to_list (listings db)))))
  | FindListing id next =>
      attempt (CallFindListing id) (exec sv (next (listings db !! id)))
  | FindListingWithReviews id next =>
      attempt (CallFindListingWithReviews id)
        (exec sv (next ((λ l, (l, populate db (Listing.reviews l))) <$> listings db !! id)))
  | FindReservation id next =>
      attempt (CallFindReservation id) (exec sv (next (reservations db !! id)))
  | Now next => exec sv (next (clock sv)) db
  | NewReviewId next => exec sv (next (objectIds sv (issued db))) (drawId db)
  | SaveReview doc next =>
      attempt (CallSaveReview doc) (λ db', exec sv next (putReview doc db'))
  | SaveListing doc next =>
      attempt (CallSaveListing doc) (λ db', exec sv next (putListing doc db'))
  | SaveReservation doc next =>
      attempt (CallSaveReservation doc) (λ db', exec sv next (putReservation doc db'))
  end.

(** The string of [n] strokes. *)
Fixpoint strokes (n : nat) : string :=
  match n with
  | O => EmptyString
  | S n' => String "|" (strokes n')
  end.

(** Services that never fail, for a given user directory, geocoder and
    image host; the ids they hand out are "review", "review|",
    "review||" and so on. *)
Definition steadyServices (users : UserFilter → option User.t)
    (geocoder cloudinary : JS.value → JS.value) (clock : Z) : Services :=
  {| users := users; geocoder := geocoder; cloudinary := cloudinary; clock := clock;
     objectIds := λ n, "review" +:+ strokes n; outage := λ _, None |}.

Definition emptyDatabase : Database := mkDatabase ∅ ∅ ∅ [] 0 [].


(** ** Further notions for the normalizer and the search *)

(** Whether an object has a truthy value under the lowercase name of a
    weekday. *)
Definition opensOn (props : gmap string JS.value) (d : string) : bool :=
  match props !! JS.toLowerCase d with
  | Some entry => JS.toBoolean entry
  | None => false
  end.

(** Whether a string holds a comma. *)
Definition hasComma (s : string) : Prop := In ","%char (list_ascii_of_string s).

(** [{ monday: true, sunday: "closed" }] *)
Definition flaggedDays : gmap string JS.value :=
  {[ "monday" := JS.VBool true; "sunday" := JS.VStr "closed" ]}.


(** ** Sample data for the other handlers *)

Definition ann : User.t := User.mk "ann".

(** A directory that knows one user, by her address and by her uid. *)
Definition directory (filter : UserFilter) : option User.t :=
  match filter with
  | ByEmail (JS.VStr "ann@example.org") => Some ann
  | ByUid (JS.VStr "uid-ann") => Some ann
  | _ => None
  end.

(** A geocoder that finds every address at latitude 37, longitude -122. *)
Definition mainStreet (address : JS.value) : JS.value :=
  JS.VObj {[ "lat" := JS.VNum (JS.Finite false 37 0);
             "lng" := JS.VNum (JS.Finite true 122 0) ]}.

(** An image host that stores a file under its own path and fails,
    answering null, on "broken.png". *)
Definition imageHost (path : JS.value) : JS.value :=
  match path with
  | JS.VStr "broken.png" => JS.VNull
  | _ => JS.VObj {[ "secure_url" := path ]}
  end.

Definition sampleServices : Services :=
  steadyServices directory mainStreet imageHost monday1800.

Definition file (path : string) : JS.value := JS.VObj {[ "path" := JS.VStr path ]}.

Definition sampleBody (customTimes : JS.value) : Body.t :=
  {| Body.owner := JS.VStr "ann@example.org";
     Body.address := JS.VStr "1 Main Street";
     Body.spotType := JS.VStr "garage";
     Body.vehicleSize := JS.VStr "compact";
     Body.spacesToRent := JS.VNum (JS.Finite false 1 0);
     Body.title := JS.VStr "Garage on Main Street";
     Body.description := JS.VStr "Covered, one car";
     Body.accessInstructions := JS.VStr "";
     Body.spotImages := [JS.VObj {[ "url" := JS.VStr "front.png" ]}];
     Body.pricePerHour := JS.VNum (JS.Finite false 3 0);
     Body.pricePerDay := JS.VNum (JS.Finite false 20 0);
     Body.pricePerMonth := JS.VNum (JS.Finite false 300 0);
     Body.availableFrom := JS.VStr "2024-01-01";
     Body.customTimes := customTimes |}.


(** ** Further notions for the other handlers *)

(** A database after a sequence of calls has been entered in its
    journal. *)
Definition recordAll (calls : list Call) (db : Database) : Database :=
  foldl (λ db c, record c db) db calls.

(** What the image host answers for a file, and the call that asks. *)
Definition uploadResult (sv : Services) (file : JS.value) : JS.value :=
  cloudinary sv (fieldOf file "path").

Definition uploadCall (file : JS.value) : Call := CallUpload (fieldOf file "path").

(** A file object whose upload answers with an object. *)
Definition uploads (sv : Services) (file : JS.value) : Prop :=
  file ≠ JS.VUndefined ∧ file ≠ JS.VNull
  ∧ uploadResult sv file ≠ JS.VUndefined ∧ uploadResult sv file ≠ JS.VNull.


(** The review that [createReview] builds for a request, from what the
    request holds and the id that was drawn. *)
Definition reviewOf (req : ReviewRequest.t) (author : User.t) (id : ObjectId) : Review.t :=
  {| Review._id := id;
     Review.user := User._id author;
     Review.parkingSpace := ReviewRequest.parkingId req;
     Review.reservation := ReviewRequest.reservationId req;
     Review.rating := fieldOf (ReviewRequest.body req) "rating";
     Review.comment := fieldOf (ReviewRequest.body req) "comment" |}.

(** A listing with one more review, and a reservation closed by a
    review. *)
Definition withReview (l : Listing.t) (id : ObjectId) : Listing.t :=
  {| Listing.details := Listing.details l; Listing.reviews := Listing.reviews l ++ [id] |}.

Definition closedBy (r : Reservation.t) (id : ObjectId) : Reservation.t :=
  {| Reservation._id := Reservation._id r; Reservation.endTime := Reservation.endTime r;
     Reservation.review := Some id; Reservation.status := "Completed" |}.

(** A request that [createReview] can read: a body and a user that are
    neither null nor undefined. *)
Definition readable (req : ReviewRequest.t) : Prop :=
  ReviewRequest.body req ≠ JS.VUndefined ∧ ReviewRequest.body req ≠ JS.VNull
  ∧ ReviewRequest.user req ≠ JS.VUndefined ∧ ReviewRequest.user req ≠ JS.VNull.

(** The filter with which [createReview] looks up the author. *)
Definition authorFilter (req : ReviewRequest.t) : UserFilter :=
  ByUid (fieldOf (ReviewRequest.user req) "uid").

(** The calls of a review that goes through, in order. *)
Definition reviewCalls (req : ReviewRequest.t) (author : User.t) (l : Listing.t)
    (r : Reservation.t) (id : ObjectId) : list Call :=
  [CallFindUser (authorFilter req);
   CallFindListing (ReviewRequest.parkingId req);
   CallFindReservation (ReviewRequest.reservationId req);
   CallSaveReview (reviewOf req author id);
   CallSaveListing (withReview l id);
   CallSaveReservation (closedBy r id)].

(** ** Sample data for the review controller *)

Definition garageListing : Listing.t :=
  {| Listing.details := garage [mondayOffice]; Listing.reviews := [] |}.

(** A reservation that ended on Monday at noon. *)
Definition booking : Reservation.t :=
  {| Reservation._id := "booking"; Reservation.endTime := Some monday1200;
     Reservation.review := None; Reservation.status := "Confirmed" |}.

Definition bookedDatabase : Database :=
  mkDatabase {[ "garage" := garageListing ]} {[ "booking" := booking ]} ∅ [] 0 [].

Definition annReviews : ReviewRequest.t :=
  {| ReviewRequest.parkingId := "garage";
     ReviewRequest.reservationId := "booking";
     ReviewRequest.body :=
       JS.VObj {[ "rating" := JS.VNum (JS.Finite false 5 0);
                  "comment" := JS.VStr "Easy to find" ]};
     ReviewRequest.user := JS.VObj {[ "uid" := JS.VStr "uid-ann" ]} |}.

(** Services whose store turns down every save of a listing. *)
Definition listingsReadOnly : Services :=
  {| users := directory; geocoder := mainStreet; cloudinary := imageHost;
     clock := monday1800; objectIds := λ n, "review" +:+ strokes n;
     outage := λ c, match c with
                    | CallSaveListing _ => Some "listing not saved"
                    | _ => None
                    end |}.


(** The same request from a user the directory does not know, for a
    parking space and a reservation that do not exist either. *)
Definition strangerReviews : ReviewRequest.t :=
  {| ReviewRequest.parkingId := "nowhere";
     ReviewRequest.reservationId := "never";
     ReviewRequest.body := JS.VObj {[ "rating" := JS.VNum (JS.Finite false 1 0) ]};
     ReviewRequest.user := JS.VObj {[ "uid" := JS.VStr "uid-bob" ]} |}.

(** Ann's review as [createReview] builds it with the first id. *)
Definition annsReview : Review.t := reviewOf annReviews ann "review".

(* ================================================================== *)
(** * Properties of the schedule normalizer                            *)
(* ================================================================== *)

Section Normalizer.

Implicit Types (props : gmap string JS.value) (d : string).
Implicit Types (availability : list (Slot JS.value)).

Lemma get_truthy (entry : JS.value) (k : string) :
  JS.toBoolean entry = true → JS.get entry k = JS.Normal (fieldOf entry k).
Proof. by destruct entry. Qed.

(** One round of the loop on an object: the slot of the day, if any, is
    appended. *)
Lemma pushIfOpen_object props availability d :
  pushIfOpen (JS.VObj props) availability d
  = JS.Normal (availability ++ option_list (openSlot props d)).
Proof.
  unfold pushIfOpen, openSlot. cbn.
  destruct (props !! JS.toLowerCase d) as [entry|] eqn:Hentry; cbn.
  - destruct (JS.toBoolean entry) eqn:Htrue; cbn.
    + by rewrite !get_truthy.
    + by rewrite app_nil_r.
  - by rewrite app_nil_r.
Qed.

Lemma forEach_pushIfOpen props (days : list string) availability :
  JS.forEach days (pushIfOpen (JS.VObj props)) availability
  = JS.Normal (availability ++ omap (openSlot props) days).
Proof.
  revert availability.
  induction days as [|d days IH]; intros availability; cbn [JS.forEach omap].
  - by rewrite app_nil_r.
  - rewrite pushIfOpen_object. cbn. rewrite IH, <- app_assoc. f_equal. f_equal.
    by destruct (openSlot props d).
Qed.

(** On an object the normalizer never raises and returns the slots of
    the open days in the order of [daysOfWeek]. *)
Lemma transformCustomTimes_object props :
  transformCustomTimes (JS.VObj props) = JS.Normal (omap (openSlot props) daysOfWeek).
Proof. unfold transformCustomTimes. by rewrite forEach_pushIfOpen. Qed.

Lemma openSlot_day props d slot : openSlot props d = Some slot → day slot = d.
Proof.
  unfold openSlot. destruct (props !! JS.toLowerCase d) as [entry|]; cbn; [|done].
  destruct (JS.toBoolean entry); [|done]. by intros [= <-].
Qed.

Lemma openSlot_days props (days : list string) :
  day <$> omap (openSlot props) days `sublist_of` days.
Proof.
  induction days as [|d days IH]; cbn; [constructor|].
  destruct (openSlot props d) as [slot|] eqn:Hslot; cbn.
  - rewrite (openSlot_day _ _ _ Hslot). by constructor.
  - by constructor.
Qed.

Lemma openSlot_elem props (days : list string) slot :
  slot ∈ omap (openSlot props) days → day slot ∈ days ∧ openSlot props (day slot) = Some slot.
Proof.
  rewrite list_elem_of_omap. intros (d & Hd & Hslot).
  by rewrite (openSlot_day _ _ _ Hslot).
Qed.

(** The slots of one day among those of a duplicate-free list of days. *)
Lemma openSlot_filter props (days : list string) d :
  NoDup days →
  filter (λ slot, day slot = d) (omap (openSlot props) days)
  = if decide (d ∈ days) then option_list (openSlot props d) else [].
Proof.
  induction 1 as [|d' days Hfresh Hnodup IH]; csimpl; [done|].
  assert (Hcons : filter (λ slot, day slot = d) (omap (openSlot props) days)
                  = if decide (d ∈ d' :: days)
                    then (if decide (d = d') then [] else option_list (openSlot props d))
                    else []).
  { rewrite IH. destruct (decide (d = d')) as [->|Hne].
    - by rewrite decide_False, decide_True by set_solver.
    - destruct (decide (d ∈ days)).
      + by rewrite decide_True by set_solver.
      + by rewrite decide_False by set_solver. }
  destruct (openSlot props d') as [slot|] eqn:Hslot; csimpl.
  - rewrite filter_cons, Hcons, (openSlot_day _ _ _ Hslot).
    destruct (decide (d' = d)) as [->|Hne].
    + by rewrite Hslot, !decide_True by set_solver.
    + destruct (decide (d ∈ d' :: days)); [|done].
      by rewrite decide_False by done.
  - rewrite Hcons. destruct (decide (d ∈ d' :: days)); [|done].
    destruct (decide (d = d')) as [->|Hne]; [|done]. by rewrite Hslot.
Qed.

Lemma daysOfWeek_NoDup : NoDup daysOfWeek.
Proof. unfold daysOfWeek. repeat constructor; set_solver. Qed.

Lemma scheduleObject_openSlot (schedule : gmap string (gmap string JS.value)) d :
  openSlot (JS.VObj <$> schedule) d
  = (λ entry, mkSlot d (field entry "in") (field entry "out")) <$> schedule !! JS.toLowerCase d.
Proof.
  unfold openSlot. rewrite lookup_fmap.
  by destruct (schedule !! JS.toLowerCase d).
Qed.

Lemma pushIfOpen_sameDay (c1 c2 : JS.value) availability d :
  JS.get c1 (JS.toLowerCase d) = JS.get c2 (JS.toLowerCase d) →
  pushIfOpen c1 availability d = pushIfOpen c2 availability d.
Proof. unfold pushIfOpen. by intros ->. Qed.

Lemma forEach_sameDays (c1 c2 : JS.value) (days : list string) availability :
  (∀ d, d ∈ days → JS.get c1 (JS.toLowerCase d) = JS.get c2 (JS.toLowerCase d)) →
  JS.forEach days (pushIfOpen c1) availability
  = JS.forEach days (pushIfOpen c2) availability.
Proof.
  revert availability.
  induction days as [|d days IH]; intros availability Hsame; cbn [JS.forEach]; [done|].
  rewrite (pushIfOpen_sameDay c1 c2) by (apply Hsame; set_solver).
  destruct (pushIfOpen c2 availability d) as [availability'|e]; cbn; [|done].
  apply IH. intros d' Hd'. apply Hsame. set_solver.
Qed.

(** Entries that are not objects: a falsy one closes its day. *)
Example transformCustomTimes_blanks :
  transformCustomTimes fridayAmongBlanks
  = JS.Normal [mkSlot "Friday" (JS.VStr "09:00") (JS.VStr "17:00")].
Proof. reflexivity. Qed.

(** Without a schedule the first property read raises. *)
Example transformCustomTimes_undefined :
  transformCustomTimes JS.VUndefined = JS.Throw JS.TypeError.
Proof. reflexivity. Qed.

(** C3. For every schedule map (weekday name to entry object) the
    normalizer returns normally; for each of the seven weekdays whose
    lowercase name is a key of the map, exactly one slot of the result
    carries that day, with the entry's [in] and [out] as its times; a day
    that is not a key has no slot; and the days of the result appear in
    the order Monday to Sunday. *)
Theorem transformCustomTimes_schedule (schedule : gmap string (gmap string JS.value)) :
  ∃ availability,
    transformCustomTimes (scheduleObject schedule) = JS.Normal availability
    ∧ (∀ d entry, d ∈ daysOfWeek → schedule !! JS.toLowerCase d = Some entry →
         filter (λ slot, day slot = d) availability
         = [mkSlot d (field entry "in") (field entry "out")])
    ∧ (∀ d, schedule !! JS.toLowerCase d = None →
         filter (λ slot, day slot = d) availability = [])
    ∧ day <$> availability `sublist_of` daysOfWeek.
Proof.
  eexists. split; [apply transformCustomTimes_object|].
  split; [|split].
  - intros d entry Hd Hentry.
    rewrite openSlot_filter by apply daysOfWeek_NoDup.
    rewrite decide_True by done.
    by rewrite scheduleObject_openSlot, Hentry.
  - intros d Habsent.
    rewrite openSlot_filter by apply daysOfWeek_NoDup.
    case_decide; [|done].
    by rewrite scheduleObject_openSlot, Habsent.
  - apply openSlot_days.
Qed.

(** C8. For every input object the normalized table has no two slots of
    the same weekday - at most one slot for any day - and so at most
    seven slots. *)
Theorem transformCustomTimes_one_slot_per_day props :
  ∃ availability,
    transformCustomTimes (JS.VObj props) = JS.Normal availability
    ∧ NoDup (day <$> availability)
    ∧ (∀ d, (length (filter (λ slot, day slot = d) availability) ≤ 1)%nat)
    ∧ (length availability ≤ 7)%nat.
Proof.
  eexists. split; [apply transformCustomTimes_object|].
  split; [|split].
  - eapply sublist_NoDup; [apply daysOfWeek_NoDup | apply openSlot_days].
  - intros d. rewrite openSlot_filter by apply daysOfWeek_NoDup.
    case_decide; [|cbn; lia].
    destruct (openSlot props d); cbn; lia.
  - rewrite <- (length_fmap day).
    apply (sublist_length _ daysOfWeek), openSlot_days.
Qed.

(** C9. The result of the normalizer is determined by what its input
    holds under the seven weekday keys and by nothing else: two inputs
    that read the same under those keys - in particular the same input
    given twice - normalize to identical slot sequences. *)
Theorem transformCustomTimes_deterministic (c1 c2 : JS.value) :
  sameWeek c1 c2 → transformCustomTimes c1 = transformCustomTimes c2.
Proof. intros Hsame. by apply forEach_sameDays. Qed.

Lemma transformCustomTimes_deterministic_witness :
  sameWeek mondayOnly mondayWithNote
  ∧ transformCustomTimes mondayOnly = transformCustomTimes mondayWithNote.
Proof.
  assert (Hsame : sameWeek mondayOnly mondayWithNote).
  { intros d Hd. unfold daysOfWeek in Hd.
    repeat (apply elem_of_cons in Hd as [->|Hd]; [vm_compute; reflexivity|]).
    by apply elem_of_nil in Hd. }
  split; [exact Hsame|].
  exact (transformCustomTimes_deterministic mondayOnly mondayWithNote Hsame).
Defined.

End Normalizer.

(* ================================================================== *)
(** * Clock times and epoch dates                                      *)
(* ================================================================== *)

Section Clock.

Lemma digitValue_range (c : ascii) (x : Z) : JS.digitValue c = Some x → 0 <= x <= 9.
Proof.
  unfold JS.digitValue, JS.isDecimalDigit.
  destruct (_ && _) eqn:Hdigit; [|done]. intros [= <-].
  apply andb_true_iff in Hdigit as [Hlo Hhi].
  apply N.leb_le in Hlo, Hhi. lia.
Qed.

Lemma number2_range (a b : ascii) (n : Z) : JS.number2 a b = Some n → 0 <= n <= 99.
Proof.
  unfold JS.number2.
  destruct (JS.digitValue a) as [x|] eqn:Hx; [|done].
  destruct (JS.digitValue b) as [y|] eqn:Hy; [|done].
  intros [= <-]. apply digitValue_range in Hx, Hy. lia.
Qed.

Lemma digitValue_digitChar (d : Z) : 0 <= d <= 9 → JS.digitValue (JS.digitChar d) = Some d.
Proof.
  intros Hd.
  assert (Hcases : d = 0 ∨ d = 1 ∨ d = 2 ∨ d = 3 ∨ d = 4
                   ∨ d = 5 ∨ d = 6 ∨ d = 7 ∨ d = 8 ∨ d = 9) by lia.
  repeat (destruct Hcases as [->|Hcases]; [reflexivity|]).
  by subst.
Qed.

Lemma number2_pad2 (n : Z) :
  0 <= n <= 99 →
  JS.pad2 n = String (JS.digitChar (n / 10)) (String (JS.digitChar (n mod 10)) EmptyString)
  ∧ JS.number2 (JS.digitChar (n / 10)) (JS.digitChar (n mod 10)) = Some n.
Proof.
  intros Hn. split; [done|]. unfold JS.number2.
  rewrite !digitValue_digitChar by (Z.div_mod_to_equations; lia).
  cbn. f_equal. Z.div_mod_to_equations; lia.
Qed.

Lemma clockMinutes_inv (s : string) (m : Z) :
  clockMinutes s = Some m →
  ∃ h1 h2 m1 m2 hh mm,
    s = String h1 (String h2 (String ":" (String m1 (String m2 EmptyString))))
    ∧ JS.number2 h1 h2 = Some hh ∧ JS.number2 m1 m2 = Some mm
    ∧ ((hh <= 23 ∧ mm <= 59) ∨ (hh = 24 ∧ mm = 0))
    ∧ m = 60 * hh + mm.
Proof.
  unfold clockMinutes.
  destruct s as [|h1 [|h2 [|colon [|m1 [|m2 [|? ?]]]]]]; try done. cbn.
  destruct (Ascii.eqb_spec colon ":") as [->|]; [|done].
  destruct (JS.number2 h1 h2) as [hh|] eqn:Hh; [|done].
  destruct (JS.number2 m1 m2) as [mm|] eqn:Hm; [|done]. cbn.
  destruct (_ || _) eqn:Hvalid; [|done]. intros [= <-].
  exists h1, h2, m1, m2, hh, mm. repeat split; try done.
  apply orb_true_iff in Hvalid as [Hday|Hend].
  - left. apply andb_true_iff in Hday as [? ?]. lia.
  - right. apply andb_true_iff in Hend as [? ?]. lia.
Qed.

Lemma clockMinutes_range (s : string) (m : Z) : clockMinutes s = Some m → 0 <= m <= 1440.
Proof.
  intros (h1 & h2 & m1 & m2 & hh & mm & _ & Hh & Hm & Hvalid & ->)%clockMinutes_inv.
  apply number2_range in Hh, Hm. lia.
Qed.

(** The string the template literal builds from a clock time is in the
    interchange format: that time on 1 January 1970, without offset. *)
Lemma parseInterchange_epoch (s : string) (m : Z) :
  clockMinutes s = Some m →
  JS.parseInterchange ("1970-01-01T" +:+ s +:+ ":00") = Some (m * JS.msPerMinute, None).
Proof.
  intros (h1 & h2 & m1 & m2 & hh & mm & -> & Hh & Hm & Hvalid & ->)%clockMinutes_inv.
  unfold JS.parseInterchange. cbv [String.append]. cbn [list_ascii_of_string].
  change (JS.parseDatePart _)
    with (Some (0, ["T"%char; h1; h2; ":"%char; m1; m2; ":"%char; "0"%char; "0"%char])).
  cbn [mbind option_bind Ascii.eqb Bool.eqb].
  unfold JS.parseTimePart. cbn [Ascii.eqb Bool.eqb]. rewrite Hh, Hm.
  cbn [mbind option_bind JS.parseSeconds Ascii.eqb Bool.eqb].
  change (JS.number2 "0" "0") with (Some 0). cbn [mbind option_bind].
  assert (Hok : (hh <=? 23) && (mm <=? 59) && (0 <=? 59)
                || (hh =? 24) && (mm =? 0) && (0 =? 0) && (0 =? 0) = true).
  { apply orb_true_iff.
    destruct Hvalid as [[? ?]|[-> ->]]; [left|right; done].
    rewrite !andb_true_iff. repeat split; lia. }
  rewrite Hok. cbn.
  unfold JS.MakeDate, JS.MakeTime, JS.msPerHour, JS.msPerMinute. do 2 f_equal. lia.
Qed.

Context `{!JS.Host}.

Lemma epochDate_clock (s : string) (m : Z) :
  epochDayUniform → clockMinutes s = Some m →
  epochDate s = Some (m * JS.msPerMinute - JS.LocalTZA 0 false).
Proof.
  intros Huniform Hclock. unfold epochDate, JS.newDate, JS.Date_parse.
  rewrite (parseInterchange_epoch _ _ Hclock). unfold JS.UTC.
  rewrite Huniform; [done|].
  apply clockMinutes_range in Hclock. unfold JS.msPerMinute, JS.msPerDay. lia.
Qed.

Lemma HourFromTime_range (t : Z) : 0 <= JS.HourFromTime t <= 23.
Proof. unfold JS.HourFromTime. Z.div_mod_to_equations; lia. Qed.

Lemma MinFromTime_range (t : Z) : 0 <= JS.MinFromTime t <= 59.
Proof. unfold JS.MinFromTime. Z.div_mod_to_equations; lia. Qed.

Lemma minuteOfDay_range (t : Z) : 0 <= minuteOfDay t < 1440.
Proof.
  unfold minuteOfDay.
  pose proof (HourFromTime_range (JS.LocalTime t)).
  pose proof (MinFromTime_range (JS.LocalTime t)). lia.
Qed.

(** The first five characters of [toTimeString()] are a clock time, the
    local minute of the day. *)
Lemma clockMinutes_slice5 (t : Z) :
  clockMinutes (JS.toTimeString_slice5 t) = Some (minuteOfDay t).
Proof.
  unfold JS.toTimeString_slice5, minuteOfDay.
  pose proof (HourFromTime_range (JS.LocalTime t)) as Hh.
  pose proof (MinFromTime_range (JS.LocalTime t)) as Hm.
  destruct (number2_pad2 (JS.HourFromTime (JS.LocalTime t))) as [-> Hhh]; [lia|].
  destruct (number2_pad2 (JS.MinFromTime (JS.LocalTime t))) as [-> Hmm]; [lia|].
  unfold clockMinutes. cbv [String.append].
  cbn [list_ascii_of_string Ascii.eqb Bool.eqb].
  rewrite Hhh, Hmm. cbn [mbind option_bind].
  replace (_ || _) with true; [done|].
  symmetry. apply orb_true_iff. left. apply andb_true_iff. lia.
Qed.

Lemma epochDate_slice5 (t : Z) :
  epochDayUniform →
  epochDate (JS.toTimeString_slice5 t)
  = Some (minuteOfDay t * JS.msPerMinute - JS.LocalTZA 0 false).
Proof. intros Huniform. apply epochDate_clock; [done | apply clockMinutes_slice5]. Qed.

End Clock.

(* ================================================================== *)
(** * Properties of the array built-ins                                *)
(* ================================================================== *)

Section Arrays.

Context {A : Type}.
Implicit Types (callback : A → bool) (l kept : list A).

Lemma some_true callback l :
  JS.some callback l = true ↔ ∃ x, x ∈ l ∧ callback x = true.
Proof.
  induction l as [|x l IH]; cbn.
  - split; [done|]. intros (x & Hx & _). by apply elem_of_nil in Hx.
  - destruct (callback x) eqn:Hx.
    + split; [|done]. intros _. exists x. split; [left|done].
    + rewrite IH. split.
      * intros (y & Hy & Hcb). exists y. split; [by right|done].
      * intros (y & Hy & Hcb). apply elem_of_cons in Hy as [->|Hy]; [congruence|].
        by exists y.
Qed.

Lemma some_false callback l :
  JS.some callback l = false ↔ ∀ x, x ∈ l → callback x = false.
Proof.
  rewrite <- not_true_iff_false, some_true. split.
  - intros Hnone x Hx. apply not_true_iff_false. intros Hcb. apply Hnone. by exists x.
  - intros Hall (x & Hx & Hcb). rewrite (Hall x Hx) in Hcb. done.
Qed.

Lemma filter_loop callback l kept :
  fold_left (λ kept x, if callback x then kept ++ [x] else kept) l kept
  = kept ++ List.filter callback l.
Proof.
  revert kept. induction l as [|x l IH]; intros kept; cbn.
  - by rewrite app_nil_r.
  - rewrite IH. destruct (callback x); [|done]. by rewrite <- app_assoc.
Qed.

(** The loop of [filter] keeps exactly the accepted elements, in order. *)
Lemma filter_spec callback l : JS.filter callback l = List.filter callback l.
Proof. unfold JS.filter. by rewrite filter_loop. Qed.

Lemma filter_elem callback l x :
  x ∈ JS.filter callback l ↔ x ∈ l ∧ callback x = true.
Proof. by rewrite filter_spec, !list_elem_of_In, filter_In. Qed.

Lemma filter_sublist callback l : JS.filter callback l `sublist_of` l.
Proof.
  rewrite filter_spec. induction l as [|x l IH]; cbn; [constructor|].
  destruct (callback x); by constructor.
Qed.

End Arrays.

(* ================================================================== *)
(** * Properties of the availability matcher                           *)
(* ================================================================== *)

Section Matcher.

Context `{!JS.Host}.
Implicit Types (slot : Slot string) (p : ParkingSpace).
Implicit Types (timeInDate timeOutDate : Z).

(** On a clock slot the Date comparisons of the callback are comparisons
    of minutes of the day. *)
Lemma slotCovers_clock slot opens closes queryDay timeInDate timeOutDate :
  epochDayUniform →
  clockMinutes (fromTime slot) = Some opens →
  clockMinutes (toTime slot) = Some closes →
  slotCovers queryDay timeInDate timeOutDate slot = true
  ↔ day slot = queryDay
    ∧ opens <= minuteOfDay timeInDate ∧ minuteOfDay timeOutDate <= closes.
Proof.
  intros Huniform Hopens Hcloses. unfold slotCovers.
  rewrite (epochDate_clock _ _ Huniform Hopens), (epochDate_clock _ _ Huniform Hcloses).
  rewrite !epochDate_slice5 by done. cbn [JS.date_ge JS.date_le].
  destruct (String.eqb_spec (day slot) queryDay) as [Hday|Hday].
  - rewrite andb_true_iff, !Z.leb_le. unfold JS.msPerMinute. split.
    + intros [? ?]. repeat split; [done|lia..].
    + intros (_ & ? & ?). split; lia.
  - split; [done|]. by intros [? _].
Qed.

Lemma slotCovers_covers slot timeInDate timeOutDate :
  epochDayUniform → clockSlot slot →
  slotCovers (JS.toLocaleWeekday timeInDate) timeInDate timeOutDate slot = true
  ↔ covers slot (JS.toLocaleWeekday timeInDate)
      (minuteOfDay timeInDate) (minuteOfDay timeOutDate).
Proof.
  intros Huniform [[opens Hopens] [closes Hcloses]].
  rewrite (slotCovers_clock _ _ _ _ _ _ Huniform Hopens Hcloses).
  unfold covers. split.
  - intros (? & ? & ?). split; [done|]. by exists opens, closes.
  - intros (? & opens' & closes' & Ho & Hc & ? & ?).
    rewrite Hopens in Ho. rewrite Hcloses in Hc.
    injection Ho as <-. injection Hc as <-. done.
Qed.

Lemma slotCovers_other_day slot queryDay timeInDate timeOutDate :
  day slot ≠ queryDay → slotCovers queryDay timeInDate timeOutDate slot = false.
Proof.
  intros Hday. unfold slotCovers.
  by destruct (String.eqb_spec (day slot) queryDay).
Qed.

Lemma isOpenFor_covers p timeInDate timeOutDate :
  epochDayUniform → Forall clockSlot (daysAvailable p) →
  isOpenFor timeInDate timeOutDate p = true
  ↔ ∃ slot, slot ∈ daysAvailable p
      ∧ covers slot (JS.toLocaleWeekday timeInDate)
          (minuteOfDay timeInDate) (minuteOfDay timeOutDate).
Proof.
  intros Huniform Hclock. unfold isOpenFor. rewrite some_true.
  rewrite Forall_forall in Hclock.
  split; intros (slot & Hslot & Hcovers); exists slot; (split; [done|]).
  - apply slotCovers_covers; auto.
  - apply slotCovers_covers; auto.
Qed.

Lemma mondayOffice_clock : clockSlot mondayOffice.
Proof. split; by eexists. Qed.

Lemma mondayOffice_covers weekday startMinute endMinute :
  covers mondayOffice weekday startMinute endMinute
  ↔ weekday = "Monday" ∧ 540 <= startMinute ∧ endMinute <= 1020.
Proof.
  unfold covers. cbn [day fromTime toTime mondayOffice].
  change (clockMinutes "09:00") with (Some 540).
  change (clockMinutes "17:00") with (Some 1020). split.
  - intros (<- & opens & closes & [= <-] & [= <-] & ? & ?). done.
  - intros (-> & ? & ?). split; [done|]. by exists 540, 1020.
Qed.

(** C4, as amended.  A slot that opens at or after the time it closes
    is never matched by a request whose start is earlier in the day than
    its end. *)
Theorem inverted_slot_not_covered slot opens closes queryDay timeInDate timeOutDate :
  epochDayUniform →
  clockMinutes (fromTime slot) = Some opens →
  clockMinutes (toTime slot) = Some closes →
  closes <= opens →
  minuteOfDay timeInDate < minuteOfDay timeOutDate →
  slotCovers queryDay timeInDate timeOutDate slot = false.
Proof.
  intros Huniform Hopens Hcloses Hinverted Hforward.
  apply not_true_iff_false.
  rewrite (slotCovers_clock _ _ _ _ _ _ Huniform Hopens Hcloses). lia.
Qed.

End Matcher.

Lemma fixedOffsetHost_uniform (offset : Z) : @epochDayUniform (fixedOffsetHost offset).
Proof. by intros t _. Qed.

Lemma inverted_slot_not_covered_witness :
  @slotCovers utcHost "Monday" monday1000 monday1200 mondayNight = false.
Proof.
  apply (@inverted_slot_not_covered utcHost mondayNight 1020 540 "Monday"
           monday1000 monday1200 (fixedOffsetHost_uniform 0));
    first [reflexivity | vm_compute; congruence | vm_compute; reflexivity].
Defined.

(** C4 as stated fails: the slot Monday 17:00-09:00 opens after it
    closes, yet a request from Monday 18:00 to Tuesday 08:00 (which ends
    after it starts) matches it, and the record that carries it is
    kept. *)
Lemma inverted_slot_covered :
  clockMinutes (fromTime mondayNight) = Some 1020
  ∧ clockMinutes (toTime mondayNight) = Some 540
  ∧ monday1800 < tuesday0800
  ∧ @JS.toLocaleWeekday utcHost monday1800 = "Monday"
  ∧ @slotCovers utcHost "Monday" monday1800 tuesday0800 mondayNight = true
  ∧ @JS.filter _ (@isOpenFor utcHost monday1800 tuesday0800) [garage [mondayNight]]
    = [garage [mondayNight]].
Proof. repeat split; reflexivity. Qed.

Lemma fixedOffsetHost_LocalTime (offset t : Z) :
  @JS.LocalTime (fixedOffsetHost offset) (t - offset) = t.
Proof. unfold JS.LocalTime. cbn. lia. Qed.

(** C6. Only the clock times of the two timestamps are compared: at
    any fixed offset from UTC there is a request that starts on a Monday
    at 10:00 local time and ends four calendar days later at 12:00, and
    the slot Monday 09:00-17:00 matches it; so the search for the
    request 2024-01-01T10:00Z to 2024-01-05T12:00Z returns a record open
    on Mondays 09:00-17:00 only. *)
Theorem match_across_dates :
  (∀ offset : Z, ∃ timeInDate timeOutDate,
     JS.Day (@JS.LocalTime (fixedOffsetHost offset) timeOutDate)
     = JS.Day (@JS.LocalTime (fixedOffsetHost offset) timeInDate) + 4
     ∧ @slotCovers (fixedOffsetHost offset)
         (@JS.toLocaleWeekday (fixedOffsetHost offset) timeInDate)
         timeInDate timeOutDate mondayOffice = true
     ∧ @isOpenFor (fixedOffsetHost offset) timeInDate timeOutDate
         (garage [mondayOffice]) = true)
  ∧ @JS.newDate utcHost (timeIn mondayToFriday) = Some monday1000
  ∧ @JS.newDate utcHost (timeOut mondayToFriday) = Some friday1200
  ∧ @serve everywhereStore [garage [mondayOffice]]
      (@findNearbyParkingSpaces utcHost mondayToFriday)
    = Json 200 (SpacesBody [garage [mondayOffice]]).
Proof.
  split; [|repeat split; reflexivity].
  intros offset. exists (monday1000 - offset), (friday1200 - offset).
  assert (Hweekday : @JS.toLocaleWeekday (fixedOffsetHost offset) (monday1000 - offset)
                     = "Monday").
  { unfold JS.toLocaleWeekday. by rewrite fixedOffsetHost_LocalTime. }
  assert (Hcovers : @slotCovers (fixedOffsetHost offset) "Monday"
                      (monday1000 - offset) (friday1200 - offset) mondayOffice = true).
  { apply (@slotCovers_clock (fixedOffsetHost offset) mondayOffice 540 1020);
      [apply fixedOffsetHost_uniform | done | done |].
    unfold minuteOfDay. rewrite !fixedOffsetHost_LocalTime. by vm_compute. }
  rewrite !fixedOffsetHost_LocalTime, Hweekday. split; [done|]. split; [done|].
  unfold isOpenFor. cbn [daysAvailable garage JS.some]. by rewrite Hweekday, Hcovers.
Qed.

(* ================================================================== *)
(** * Properties of the search                                         *)
(* ================================================================== *)

Section Search.

Context `{!JS.Host}.
Implicit Types (req : Request) (q : FindQuery) (p : ParkingSpace).

Lemma isNaN_false (v : option string) :
  JS.isNaN v = false ↔ ∃ s, v = Some s ∧ JS.isStringNumericLiteral s = true.
Proof.
  destruct v as [s|]; cbn.
  - rewrite negb_false_iff. split; [by exists s|]. by intros (? & [= <-] & ?).
  - split; [done|]. by intros (? & ? & _).
Qed.

(** The handler takes one of the four ways. *)
Lemma findNearbyParkingSpaces_outcome req :
  searchOutcome req (findNearbyParkingSpaces req).
Proof.
  unfold findNearbyParkingSpaces.
  destruct (location req) as [[|c origin]|] eqn:Hlocation;
    [apply NoLocation; by right | | apply NoLocation; by left].
  remember (JS.split "," (String c origin)) as parts eqn:Hparts.
  destruct (JS.isNaN (parts !! 0%nat)) eqn:Hlat.
  { apply (BadLocation _ (String c origin)); subst; auto. }
  destruct (JS.isNaN (parts !! 1%nat)) eqn:Hlng.
  { apply (BadLocation _ (String c origin)); subst; auto. }
  cbn [orb].
  destruct (JS.newDate (timeIn req)) as [timeInDate|] eqn:Hin.
  2: { apply (BadDate _ (String c origin)); subst; auto. }
  destruct (JS.newDate (timeOut req)) as [timeOutDate|] eqn:Hout.
  2: { apply (BadDate _ (String c origin)); subst; auto. }
  apply isNaN_false in Hlat as Hlat'. destruct Hlat' as (lat & Hlat' & Hlatnum).
  apply isNaN_false in Hlng as Hlng'. destruct Hlng' as (lng & Hlng' & Hlngnum).
  rewrite Hlat', Hlng'.
  apply (Query _ (String c origin) lat lng timeInDate timeOutDate); subst; auto.
Qed.

(** The one way to the store: a non-empty origin whose first two
    components are numeric, and two valid dates. *)
Lemma findNearbyParkingSpaces_await req q next :
  findNearbyParkingSpaces req = AwaitFind q next →
  ∃ origin lat lng timeInDate timeOutDate,
    location req = Some origin
    ∧ JS.split "," origin !! 0%nat = Some lat
    ∧ JS.split "," origin !! 1%nat = Some lng
    ∧ JS.isStringNumericLiteral lat = true
    ∧ JS.isStringNumericLiteral lng = true
    ∧ JS.newDate (timeIn req) = Some timeInDate
    ∧ JS.newDate (timeOut req) = Some timeOutDate
    ∧ q = {| centerSphere := ((Some lng, Some lat), searchRadius);
             availableFrom_lte := timeInDate;
             isAvailable_eq := true |}
    ∧ next = (λ parkingSpaces,
                Respond (Json 200 (SpacesBody
                  (JS.filter (isOpenFor timeInDate timeOutDate) parkingSpaces)))).
Proof.
  intros Hawait. pose proof (findNearbyParkingSpaces_outcome req) as Hway.
  rewrite Hawait in Hway.
  inversion Hway as [| | |origin lat lng timeInDate timeOutDate]; subst.
  exists origin, lat, lng, timeInDate, timeOutDate. repeat split; done.
Qed.

(** C1. The filter keeps a candidate exactly when one of its slots is
    for the weekday of the requested start (in local time) and opens no
    later than the start's minute of the day and closes no earlier than
    the end's; so does the answer of a search that reached the store.
    With the single slot Monday 09:00-17:00, a Monday request
    10:00-12:00 is kept, one that starts at 08:00 is not, one that ends
    at 18:00 is not; and a candidate without a slot for the requested
    weekday is never kept, whatever its other slots are. *)
Theorem availability_matcher (timeInDate timeOutDate : Z) :
  epochDayUniform →
  (∀ candidates p,
     p ∈ candidates → Forall clockSlot (daysAvailable p) →
     p ∈ JS.filter (isOpenFor timeInDate timeOutDate) candidates
     ↔ ∃ slot, slot ∈ daysAvailable p
         ∧ covers slot (JS.toLocaleWeekday timeInDate)
             (minuteOfDay timeInDate) (minuteOfDay timeOutDate))
  ∧ (∀ req q next candidates p,
       findNearbyParkingSpaces req = AwaitFind q next →
       JS.newDate (timeIn req) = Some timeInDate →
       JS.newDate (timeOut req) = Some timeOutDate →
       p ∈ candidates → Forall clockSlot (daysAvailable p) →
       ∃ spaces,
         next candidates = Respond (Json 200 (SpacesBody spaces))
         ∧ (p ∈ spaces
            ↔ ∃ slot, slot ∈ daysAvailable p
                ∧ covers slot (JS.toLocaleWeekday timeInDate)
                    (minuteOfDay timeInDate) (minuteOfDay timeOutDate)))
  ∧ (∀ p,
       daysAvailable p = [mondayOffice] → JS.toLocaleWeekday timeInDate = "Monday" →
       (minuteOfDay timeInDate = 600 → minuteOfDay timeOutDate = 720 →
        isOpenFor timeInDate timeOutDate p = true)
       ∧ (minuteOfDay timeInDate = 480 → isOpenFor timeInDate timeOutDate p = false)
       ∧ (minuteOfDay timeOutDate = 1080 → isOpenFor timeInDate timeOutDate p = false))
  ∧ (∀ p,
       (∀ slot, slot ∈ daysAvailable p → day slot ≠ JS.toLocaleWeekday timeInDate) →
       isOpenFor timeInDate timeOutDate p = false).
Proof.
  intros Huniform.
  assert (Hkept : ∀ candidates p,
            p ∈ candidates → Forall clockSlot (daysAvailable p) →
            p ∈ JS.filter (isOpenFor timeInDate timeOutDate) candidates
            ↔ ∃ slot, slot ∈ daysAvailable p
                ∧ covers slot (JS.toLocaleWeekday timeInDate)
                    (minuteOfDay timeInDate) (minuteOfDay timeOutDate)).
  { intros candidates p Hp Hclock.
    rewrite filter_elem, <- (isOpenFor_covers p _ _ Huniform Hclock). tauto. }
  split; [exact Hkept|]. split; [|split].
  - intros req q next candidates p Hawait Hin Hout Hp Hclock.
    apply findNearbyParkingSpaces_await in Hawait
      as (_ & _ & _ & timeInDate' & timeOutDate' & _ & _ & _ & _ & _
          & Hin' & Hout' & _ & ->).
    rewrite Hin in Hin'. rewrite Hout in Hout'.
    injection Hin' as <-. injection Hout' as <-.
    eexists. split; [reflexivity|]. by apply Hkept.
  - intros p Hslots Hmonday.
    assert (Hclock : Forall clockSlot (daysAvailable p)).
    { rewrite Hslots. repeat constructor; apply mondayOffice_clock. }
    assert (Hiff : isOpenFor timeInDate timeOutDate p = true
                   ↔ 540 <= minuteOfDay timeInDate ∧ minuteOfDay timeOutDate <= 1020).
    { rewrite (isOpenFor_covers p _ _ Huniform Hclock), Hslots, Hmonday. split.
      - intros (slot & ->%list_elem_of_singleton & Hcovers).
        by apply mondayOffice_covers in Hcovers as (_ & ? & ?).
      - intros [? ?]. exists mondayOffice. split; [by apply list_elem_of_singleton|].
        by apply mondayOffice_covers. }
    split; [|split].
    + intros Hstart Hend. apply Hiff. lia.
    + intros Hstart. apply not_true_iff_false. rewrite Hiff. lia.
    + intros Hend. apply not_true_iff_false. rewrite Hiff. lia.
  - intros p Hother. unfold isOpenFor. apply some_false.
    intros slot Hslot. by apply slotCovers_other_day, Hother.
Qed.

(** The ways to a 400. *)
Lemma findNearbyParkingSpaces_reject req :
  malformed req →
  ∃ message, findNearbyParkingSpaces req = Respond (Json 400 (ErrorBody message)).
Proof.
  intros Hbad.
  destruct (findNearbyParkingSpaces_outcome req)
    as [ | | |origin lat lng timeInDate timeOutDate Horigin Hne Hlat Hlng Hlatnum Hlngnum Hin Hout];
    [by eexists..|].
  destruct Hbad as [?|[?|[(origin' & Horigin' & Hnan)|[?|?]]]]; [congruence..| |congruence|congruence].
  rewrite Horigin in Horigin'. injection Horigin' as <-.
  rewrite Hlat, Hlng in Hnan. cbn in Hnan. rewrite Hlatnum, Hlngnum in Hnan.
  by destruct Hnan.
Qed.

(** A request is turned down or reaches the store. *)
Lemma findNearbyParkingSpaces_cases req :
  (∃ message, findNearbyParkingSpaces req = Respond (Json 400 (ErrorBody message)))
  ∨ (∃ q next, findNearbyParkingSpaces req = AwaitFind q next).
Proof.
  destruct (findNearbyParkingSpaces_outcome req);
    [left; by eexists..|right; by do 2 eexists].
Qed.

Lemma split_comma_first (origin lat lng : string) (rest : list string) :
  JS.split "," origin = lat :: lng :: rest → origin ≠ "".
Proof. by intros Hsplit ->. Qed.

Section WithStore.

Context `{!Store}.

Lemma find_elem (collection : list ParkingSpace) q p :
  p ∈ find collection q
  ↔ p ∈ collection
    ∧ withinCenterSphere (centerSphere q).1 (centerSphere q).2 (coordinates p) = true
    ∧ availableFrom p <= availableFrom_lte q
    ∧ isAvailable p = isAvailable_eq q.
Proof.
  unfold find, selects.
  rewrite !list_elem_of_In, filter_In, !andb_true_iff, Z.leb_le, eqb_true_iff. tauto.
Qed.

(** C2. A search that reaches the store asks for exactly the records
    whose coordinate lies in the spherical cap of radius 5/6378.1 radians
    around the origin (passed as [[lng, lat]]), whose [availableFrom] is
    not after the requested start, and whose [isAvailable] is true; and
    whatever a search returns, every record in it has [isAvailable] true
    and an [availableFrom] not after the requested start. *)
Theorem search_candidates req :
  (∀ q next,
     findNearbyParkingSpaces req = AwaitFind q next →
     ∃ origin lat lng timeInDate,
       location req = Some origin
       ∧ JS.split "," origin !! 0%nat = Some lat
       ∧ JS.split "," origin !! 1%nat = Some lng
       ∧ JS.newDate (timeIn req) = Some timeInDate
       ∧ q = {| centerSphere := ((Some lng, Some lat), (5 / 6378.1)%Q);
                availableFrom_lte := timeInDate;
                isAvailable_eq := true |}
       ∧ ∀ collection p,
           p ∈ find collection q
           ↔ p ∈ collection
             ∧ withinCenterSphere (Some lng, Some lat) (5 / 6378.1)%Q (coordinates p) = true
             ∧ availableFrom p <= timeInDate
             ∧ isAvailable p = true)
  ∧ (∀ collection status spaces p,
       serve collection (findNearbyParkingSpaces req) = Json status (SpacesBody spaces) →
       p ∈ spaces →
       p ∈ collection ∧ isAvailable p = true
       ∧ ∃ timeInDate,
           JS.newDate (timeIn req) = Some timeInDate ∧ availableFrom p <= timeInDate).
Proof.
  split.
  - intros q next
      (origin & lat & lng & timeInDate & timeOutDate & Horigin & Hlat & Hlng
       & _ & _ & Hin & _ & -> & _)%findNearbyParkingSpaces_await.
    exists origin, lat, lng, timeInDate.
    do 5 (split; [done|]). intros collection p. by rewrite find_elem.
  - intros collection status spaces p Hserve Hp.
    destruct (findNearbyParkingSpaces_cases req) as [[message Hreject]|(q & next & Hawait)].
    { rewrite Hreject in Hserve. done. }
    rewrite Hawait in Hserve.
    apply findNearbyParkingSpaces_await in Hawait
      as (origin & lat & lng & timeInDate & timeOutDate & _ & _ & _
          & _ & _ & Hin & _ & -> & ->).
    cbn in Hserve. injection Hserve as <- <-.
    apply filter_elem in Hp as [(? & ? & ? & ?)%find_elem _].
    split; [done|]. split; [done|]. by exists timeInDate.
Qed.

(** C5, as amended.  A request without an origin or with an empty one,
    or whose first or second comma-separated component is missing or is
    mapped to NaN by [Number], or one of whose timestamps makes an
    Invalid Date, is answered with status 400 and an error message
    without any query to the store; the origin "abc,12.3" is answered
    with 400 "Invalid location format". *)
Theorem malformed_request_rejected req :
  (malformed req →
   ∃ message,
     findNearbyParkingSpaces req = Respond (Json 400 (ErrorBody message))
     ∧ ∀ collection,
         serve collection (findNearbyParkingSpaces req) = Json 400 (ErrorBody message))
  ∧ (location req = Some "abc,12.3" →
     findNearbyParkingSpaces req
     = Respond (Json 400 (ErrorBody "Invalid location format"))).
Proof.
  split.
  - intros [message Hreject]%findNearbyParkingSpaces_reject.
    exists message. split; [done|]. intros collection. by rewrite Hreject.
  - intros Horigin. unfold findNearbyParkingSpaces. by rewrite Horigin.
Qed.

(** C7. Whatever sequence of candidates the store returns, the search
    answers with status 200 and exactly the candidates the matcher
    accepts, in the order in which the store returned them. *)
Theorem search_result_order req q next (candidates : list ParkingSpace) :
  findNearbyParkingSpaces req = AwaitFind q next →
  ∃ timeInDate timeOutDate,
    JS.newDate (timeIn req) = Some timeInDate
    ∧ JS.newDate (timeOut req) = Some timeOutDate
    ∧ next candidates
      = Respond (Json 200 (SpacesBody
          (List.filter (isOpenFor timeInDate timeOutDate) candidates)))
    ∧ List.filter (isOpenFor timeInDate timeOutDate) candidates `sublist_of` candidates
    ∧ ∀ p, p ∈ List.filter (isOpenFor timeInDate timeOutDate) candidates
           ↔ p ∈ candidates ∧ isOpenFor timeInDate timeOutDate p = true.
Proof.
  intros (origin & lat & lng & timeInDate & timeOutDate & _ & _ & _
          & _ & _ & Hin & Hout & _ & ->)%findNearbyParkingSpaces_await.
  exists timeInDate, timeOutDate. rewrite <- filter_spec.
  do 3 (split; [done|]). split; [apply filter_sublist|].
  intros p. apply filter_elem.
Qed.

(** C10, as amended.  An origin whose first or second comma-separated
    component is empty passes the coordinate check whenever both of its
    first two components pass [isNaN] (the empty one does): a rejection,
    if any, is for the dates; and when both timestamps make valid dates
    the store is queried with the two components as the centre, whatever
    follows the second component. *)
Theorem empty_component_accepted req (origin lat lng : string) (rest : list string) :
  location req = Some origin →
  JS.split "," origin = lat :: lng :: rest →
  lat = "" ∨ lng = "" →
  JS.isNaN (Some lat) = false →
  JS.isNaN (Some lng) = false →
  JS.isNaN (Some "") = false
  ∧ (∀ status message,
       findNearbyParkingSpaces req = Respond (Json status (ErrorBody message)) →
       message = "Invalid date format")
  ∧ (∀ timeInDate timeOutDate,
       JS.newDate (timeIn req) = Some timeInDate →
       JS.newDate (timeOut req) = Some timeOutDate →
       ∃ next,
         findNearbyParkingSpaces req
         = AwaitFind {| centerSphere := ((Some lng, Some lat), searchRadius);
                        availableFrom_lte := timeInDate;
                        isAvailable_eq := true |} next).
Proof.
  intros Horigin Hsplit _ Hlat Hlng. split; [done|].
  pose proof (split_comma_first _ _ _ _ Hsplit) as Hnonempty.
  unfold findNearbyParkingSpaces. rewrite Horigin.
  destruct origin as [|c origin]; [done|].
  rewrite Hsplit. cbn [lookup list_lookup]. rewrite Hlat, Hlng. cbn [orb].
  split.
  - intros status message.
    destruct (JS.newDate (timeIn req)); [|by intros [= <- <-]].
    destruct (JS.newDate (timeOut req)); [done|by intros [= <- <-]].
  - intros timeInDate timeOutDate -> ->. by eexists.
Qed.

End WithStore.

End Search.

(** ** The search on sample requests *)

(** The scenario of the design document: a record open on Wednesdays
    08:00-20:00 is returned for Wednesday 6 March 2024, 10:00-11:00, and
    not for 10:00-21:00. *)
Example wednesday_scenario :
  @serve everywhereStore [garage [wednesdayLong]]
    (@findNearbyParkingSpaces utcHost
       {| location := Some "37.77,-122.42";
          timeIn := Some "2024-03-06T10:00"; timeOut := Some "2024-03-06T11:00" |})
  = Json 200 (SpacesBody [garage [wednesdayLong]])
  ∧ @serve everywhereStore [garage [wednesdayLong]]
      (@findNearbyParkingSpaces utcHost
         {| location := Some "37.77,-122.42";
            timeIn := Some "2024-03-06T10:00"; timeOut := Some "2024-03-06T21:00" |})
    = Json 200 (SpacesBody []).
Proof. split; reflexivity. Qed.

Lemma availability_matcher_witness :
  @isOpenFor utcHost monday1000 monday1200 (garage [mondayOffice]) = true
  ∧ @isOpenFor utcHost monday0800 monday1200 (garage [mondayOffice]) = false
  ∧ @isOpenFor utcHost monday1000 monday1800 (garage [mondayOffice]) = false.
Proof.
  pose proof (@availability_matcher utcHost monday1000 monday1200
                (fixedOffsetHost_uniform 0)) as (_ & _ & Hkept & _).
  pose proof (@availability_matcher utcHost monday0800 monday1200
                (fixedOffsetHost_uniform 0)) as (_ & _ & Hearly & _).
  pose proof (@availability_matcher utcHost monday1000 monday1800
                (fixedOffsetHost_uniform 0)) as (_ & _ & Hlate & _).
  destruct (Hkept (garage [mondayOffice]) eq_refl eq_refl) as (Hyes & _ & _).
  destruct (Hearly (garage [mondayOffice]) eq_refl eq_refl) as (_ & Hno & _).
  destruct (Hlate (garage [mondayOffice]) eq_refl eq_refl) as (_ & _ & Hno').
  split; [|split].
  - apply Hyes; reflexivity.
  - apply Hno; reflexivity.
  - apply Hno'; reflexivity.
Defined.


Lemma search_candidates_witness :
  garage [mondayOffice] ∈ sampleCollection
  ∧ isAvailable (garage [mondayOffice]) = true
  ∧ ∃ timeInDate,
      @JS.newDate utcHost (timeIn (mondayMorningAt "37.77,-122.42")) = Some timeInDate
      ∧ availableFrom (garage [mondayOffice]) <= timeInDate.
Proof.
  apply (proj2 (@search_candidates utcHost everywhereStore
                  (mondayMorningAt "37.77,-122.42"))
           sampleCollection 200 [garage [mondayOffice]]).
  - reflexivity.
  - apply list_elem_of_singleton. reflexivity.
Defined.

Lemma malformed_request_rejected_witness :
  @malformed utcHost (mondayMorningAt "abc,12.3")
  ∧ ∃ message,
      @findNearbyParkingSpaces utcHost (mondayMorningAt "abc,12.3")
      = Respond (Json 400 (ErrorBody message))
      ∧ ∀ collection,
          @serve everywhereStore collection
            (@findNearbyParkingSpaces utcHost (mondayMorningAt "abc,12.3"))
          = Json 400 (ErrorBody message).
Proof.
  assert (Hbad : @malformed utcHost (mondayMorningAt "abc,12.3")).
  { right. right. left. exists "abc,12.3". split; [reflexivity|]. left. reflexivity. }
  split; [exact Hbad|].
  exact (proj1 (@malformed_request_rejected utcHost everywhereStore
                  (mondayMorningAt "abc,12.3")) Hbad).
Defined.

(** C5 as stated fails: the first component of "Infinity,12.3" is not
    a finite number, yet the request passes the check, the store is
    queried, and on an empty collection the answer is 200 with no
    records. *)
Lemma infinite_origin_accepted :
  JS.split "," "Infinity,12.3" = ["Infinity"; "12.3"]
  ∧ JS.isNaN (Some "Infinity") = false
  ∧ answersDirectly (@findNearbyParkingSpaces utcHost (mondayMorningAt "Infinity,12.3"))
    = None
  ∧ @serve everywhereStore []
      (@findNearbyParkingSpaces utcHost (mondayMorningAt "Infinity,12.3"))
    = Json 200 (SpacesBody []).
Proof. repeat split; reflexivity. Qed.

Lemma search_result_order_witness :
  ∃ timeInDate timeOutDate,
    @JS.newDate utcHost (timeIn (mondayMorningAt "37.77,-122.42")) = Some timeInDate
    ∧ @JS.newDate utcHost (timeOut (mondayMorningAt "37.77,-122.42")) = Some timeOutDate
    ∧ Respond (Json 200 (SpacesBody
        (JS.filter (@isOpenFor utcHost monday1000 monday1200) sampleCollection)))
      = Respond (Json 200 (SpacesBody
          (List.filter (@isOpenFor utcHost timeInDate timeOutDate) sampleCollection)))
    ∧ List.filter (@isOpenFor utcHost timeInDate timeOutDate) sampleCollection
        `sublist_of` sampleCollection
    ∧ ∀ p, p ∈ List.filter (@isOpenFor utcHost timeInDate timeOutDate) sampleCollection
           ↔ p ∈ sampleCollection ∧ @isOpenFor utcHost timeInDate timeOutDate p = true.
Proof.
  exact (@search_result_order utcHost (mondayMorningAt "37.77,-122.42")
           {| centerSphere := ((Some "-122.42", Some "37.77"), searchRadius);
              availableFrom_lte := monday1000;
              isAvailable_eq := true |}
           (λ parkingSpaces,
              Respond (Json 200 (SpacesBody
                (JS.filter (@isOpenFor utcHost monday1000 monday1200) parkingSpaces))))
           sampleCollection eq_refl).
Defined.

Lemma empty_component_accepted_witness :
  JS.isNaN (Some "") = false
  ∧ (∀ status message,
       @findNearbyParkingSpaces utcHost (mondayMorningAt ",12.3")
       = Respond (Json status (ErrorBody message)) →
       message = "Invalid date format")
  ∧ (∀ timeInDate timeOutDate,
       @JS.newDate utcHost (timeIn (mondayMorningAt ",12.3")) = Some timeInDate →
       @JS.newDate utcHost (timeOut (mondayMorningAt ",12.3")) = Some timeOutDate →
       ∃ next,
         @findNearbyParkingSpaces utcHost (mondayMorningAt ",12.3")
         = AwaitFind {| centerSphere := ((Some "12.3", Some ""), searchRadius);
                        availableFrom_lte := timeInDate;
                        isAvailable_eq := true |} next).
Proof.
  apply (@empty_component_accepted utcHost (mondayMorningAt ",12.3")
           ",12.3" "" "12.3" []).
  - reflexivity.
  - reflexivity.
  - left. reflexivity.
  - reflexivity.
  - reflexivity.
Defined.

(** C10 as stated fails: the first component of ",abc" is empty, yet
    the origin is turned down, because of its second component. *)
Lemma empty_component_rejected :
  JS.split "," ",abc" = [""; "abc"]
  ∧ @findNearbyParkingSpaces utcHost (mondayMorningAt ",abc")
    = Respond (Json 400 (ErrorBody "Invalid location format")).
Proof. split; reflexivity. Qed.

(* ================================================================== *)
(** * Further properties of the schedule normalizer                    *)
(* ================================================================== *)

Section NormalizerEdges.

Implicit Types (props : gmap string JS.value) (d : string).

Lemma openSlot_opensOn props (days : list string) :
  day <$> omap (openSlot props) days = List.filter (opensOn props) days.
Proof.
  induction days as [|d days IH]; [done|]. csimpl.
  unfold openSlot at 1, opensOn at 1.
  destruct (props !! JS.toLowerCase d) as [entry|]; csimpl; [|done].
  destruct (JS.toBoolean entry); csimpl; [|done]. by rewrite IH.
Qed.

(** X1. The normalizer raises a TypeError exactly when its input is
    null or undefined; on a boolean, a number or a string it returns
    the empty table. *)
Theorem transformCustomTimes_raises (customTimes : JS.value) :
  (transformCustomTimes customTimes = JS.Throw JS.TypeError
   ↔ customTimes = JS.VUndefined ∨ customTimes = JS.VNull)
  ∧ ((∃ b, customTimes = JS.VBool b) ∨ (∃ n, customTimes = JS.VNum n)
     ∨ (∃ s, customTimes = JS.VStr s) →
     transformCustomTimes customTimes = JS.Normal []).
Proof.
  split.
  - destruct customTimes as [| | | | |props];
      try (split; [by auto | done]);
      try (split; [done | by intros [?|?]]).
    rewrite transformCustomTimes_object. split; [done | by intros [?|?]].
  - intros [[b ->]|[[n ->]|[s ->]]]; reflexivity.
Qed.

Lemma transformCustomTimes_raises_witness :
  transformCustomTimes (JS.VStr "weekdays") = JS.Normal [].
Proof.
  apply (proj2 (transformCustomTimes_raises (JS.VStr "weekdays"))).
  right. right. by exists "weekdays".
Defined.

(** X2. On an object, the days of the table are the weekdays whose
    lowercase name holds a truthy value, in the order Monday to Sunday;
    so an object without a lowercase weekday key - one keyed "Monday",
    say - gives the empty table. *)
Theorem transformCustomTimes_days props :
  ∃ availability,
    transformCustomTimes (JS.VObj props) = JS.Normal availability
    ∧ day <$> availability = List.filter (opensOn props) daysOfWeek
    ∧ ((∀ d, d ∈ daysOfWeek → props !! JS.toLowerCase d = None) → availability = []).
Proof.
  eexists. split; [apply transformCustomTimes_object|]. split.
  - apply openSlot_opensOn.
  - intros Hnone. apply fmap_nil_inv with (f := day).
    rewrite openSlot_opensOn.
    assert (Hclosed : Forall (λ d, opensOn props d = false) daysOfWeek).
    { apply Forall_forall. intros d Hd. unfold opensOn. by rewrite (Hnone d Hd). }
    clear Hnone. induction Hclosed as [|d days Hd _ IH]; [done|].
    cbn. by rewrite Hd.
Qed.

(** X3. A truthy entry that is not an object - [true], a non-empty
    string, a non-zero number - opens its day with both times
    undefined. *)
Theorem transformCustomTimes_flag props d (entry : JS.value) :
  d ∈ daysOfWeek →
  props !! JS.toLowerCase d = Some entry →
  JS.toBoolean entry = true →
  (∀ fields, entry ≠ JS.VObj fields) →
  ∃ availability,
    transformCustomTimes (JS.VObj props) = JS.Normal availability
    ∧ filter (λ slot, day slot = d) availability
      = [mkSlot d JS.VUndefined JS.VUndefined].
Proof.
  intros Hd Hentry Htruthy Hprimitive.
  eexists. split; [apply transformCustomTimes_object|].
  rewrite openSlot_filter by apply daysOfWeek_NoDup.
  rewrite decide_True by done.
  unfold openSlot. rewrite Hentry. csimpl. rewrite Htruthy.
  destruct entry as [| | | | |fields]; try done. by destruct (Hprimitive fields).
Qed.

Lemma transformCustomTimes_flag_witness :
  ∃ availability,
    transformCustomTimes (JS.VObj flaggedDays) = JS.Normal availability
    ∧ filter (λ slot, day slot = "Sunday") availability
      = [mkSlot "Sunday" JS.VUndefined JS.VUndefined].
Proof.
  apply (transformCustomTimes_flag flaggedDays "Sunday" (JS.VStr "closed")).
  - unfold daysOfWeek. set_solver.
  - reflexivity.
  - reflexivity.
  - discriminate.
Defined.

End NormalizerEdges.

(* ================================================================== *)
(** * Further properties of the search                                 *)
(* ================================================================== *)

Section SearchEdges.

Context `{!JS.Host}.
Implicit Types (req : Request) (p : ParkingSpace).

Lemma split_without_separator (sep : ascii) (s : string) :
  ¬ In sep (list_ascii_of_string s) → JS.split sep s = [s].
Proof.
  induction s as [|c s IH]; [done|]. cbn. intros Hfree.
  destruct (Ascii.eqb_spec c sep) as [->|_]; [destruct Hfree; by left|].
  rewrite IH; [done|]. intros Hin. apply Hfree. by right.
Qed.

(** X4. An origin without a comma has no second component and is
    always answered with 400 "Invalid location format", whatever it
    holds and whatever the timestamps are. *)
Theorem search_needs_comma req (origin : string) :
  location req = Some origin → origin ≠ "" → ¬ hasComma origin →
  findNearbyParkingSpaces req
  = Respond (Json 400 (ErrorBody "Invalid location format")).
Proof.
  intros Horigin Hnonempty Hfree. unfold findNearbyParkingSpaces. rewrite Horigin.
  destruct origin as [|c origin]; [done|].
  rewrite (split_without_separator _ _ Hfree). cbn [lookup list_lookup JS.isNaN].
  by rewrite orb_true_r.
Qed.

(** X5. Which of the three error messages a request gets: the origin is
    looked at first, then its two components, then the timestamps, and
    the first test that fails names the message. *)
Theorem search_error_messages req :
  (findNearbyParkingSpaces req = Respond (Json 400 (ErrorBody "Location is required"))
   ↔ location req = None ∨ location req = Some "")
  ∧ (findNearbyParkingSpaces req
     = Respond (Json 400 (ErrorBody "Invalid location format"))
     ↔ ∃ origin, location req = Some origin ∧ origin ≠ ""
         ∧ (JS.isNaN (JS.split "," origin !! 0%nat) = true
            ∨ JS.isNaN (JS.split "," origin !! 1%nat) = true))
  ∧ (findNearbyParkingSpaces req = Respond (Json 400 (ErrorBody "Invalid date format"))
     ↔ ∃ origin, location req = Some origin ∧ origin ≠ ""
         ∧ JS.isNaN (JS.split "," origin !! 0%nat) = false
         ∧ JS.isNaN (JS.split "," origin !! 1%nat) = false
         ∧ (JS.newDate (timeIn req) = None ∨ JS.newDate (timeOut req) = None)).
Proof.
  pose proof (findNearbyParkingSpaces_outcome req) as Hway.
  split; [|split]; split.
  - intros Hanswer. rewrite Hanswer in Hway. by inversion Hway.
  - intros Hnone.
    destruct Hway as [ |origin Horigin Hne|origin Horigin Hne|origin ? ? ? ? Horigin Hne];
      [done|destruct Hnone; congruence..].
  - intros Hanswer. rewrite Hanswer in Hway.
    inversion Hway as [|origin| |]. by exists origin.
  - intros (origin & Horigin & Hne & Hnan).
    destruct Hway as [[?|?]|origin' ? ? ?|origin' Horigin' ? Hlat Hlng|
                      origin' lat lng ? ? Horigin' ? Hlat Hlng Hlatnum Hlngnum];
      [congruence|congruence|done| |].
    + rewrite Horigin in Horigin'. injection Horigin' as <-.
      destruct Hnan; congruence.
    + rewrite Horigin in Horigin'. injection Horigin' as <-.
      rewrite Hlat, Hlng in Hnan. cbn in Hnan. rewrite Hlatnum, Hlngnum in Hnan.
      by destruct Hnan.
  - intros Hanswer. rewrite Hanswer in Hway.
    inversion Hway as [| |origin|]. by exists origin.
  - intros (origin & Horigin & Hne & Hlat & Hlng & Hdate).
    destruct Hway as [[?|?]|origin' Horigin' ? Hnan| |
                      origin' lat lng ? ? Horigin' ? ? ? ? ? Hin Hout];
      [congruence|congruence| |done|].
    + rewrite Horigin in Horigin'. injection Horigin' as <-.
      destruct Hnan; congruence.
    + destruct Hdate; congruence.
Qed.

(** X6. A request reaches the store exactly when it is not malformed:
    every request with a non-empty origin whose first two components
    are numeric and with two valid timestamps is passed on. *)
Theorem search_reaches_store req :
  (∃ q next, findNearbyParkingSpaces req = AwaitFind q next) ↔ ¬ malformed req.
Proof.
  split.
  - intros (q & next & Hawait) [message Hreject]%findNearbyParkingSpaces_reject.
    congruence.
  - intros Hfine.
    destruct (findNearbyParkingSpaces_outcome req)
      as [Hnone|origin Horigin Hne Hnan|origin Horigin Hne Hlat Hlng Hdate|];
      [| | |by do 2 eexists]; destruct Hfine; unfold malformed.
    + tauto.
    + right. right. left. by exists origin.
    + tauto.
Qed.

(** X7. Two requests with the same timestamps whose origins agree on
    their first two components are treated alike: what follows the
    second component plays no part. *)
Theorem search_ignores_further_components req req' (origin origin' : string) :
  location req = Some origin → location req' = Some origin' →
  origin ≠ "" → origin' ≠ "" →
  JS.split "," origin !! 0%nat = JS.split "," origin' !! 0%nat →
  JS.split "," origin !! 1%nat = JS.split "," origin' !! 1%nat →
  timeIn req = timeIn req' → timeOut req = timeOut req' →
  findNearbyParkingSpaces req = findNearbyParkingSpaces req'.
Proof.
  intros Horigin Horigin' Hne Hne' Hlat Hlng Hin Hout.
  unfold findNearbyParkingSpaces. rewrite Horigin, Horigin', Hin, Hout.
  destruct origin as [|c origin]; [done|]. destruct origin' as [|c' origin']; [done|].
  by rewrite Hlat, Hlng.
Qed.

Lemma clock_digits (h m h' m' : Z) :
  0 <= m <= 59 → 0 <= m' <= 59 → 60 * h + m = 60 * h' + m' → h = h' ∧ m = m'.
Proof. lia. Qed.

Lemma toTimeString_slice5_minute (t t' : Z) :
  minuteOfDay t = minuteOfDay t' →
  JS.toTimeString_slice5 t = JS.toTimeString_slice5 t'.
Proof.
  unfold minuteOfDay, JS.toTimeString_slice5. intros Hsame.
  apply clock_digits in Hsame as [-> ->]; [done|apply MinFromTime_range..].
Qed.

Lemma some_ext {A : Type} (f g : A → bool) (l : list A) :
  (∀ x, f x = g x) → JS.some f l = JS.some g l.
Proof. intros Hfg. induction l as [|x l IH]; [done|]. cbn. by rewrite Hfg, IH. Qed.

(** X8. The matcher looks at the weekday and the minute of the day of
    the start and at the minute of the day of the end, and at nothing
    else: the date of the end, the seconds of both and the order of
    the two instants do not matter. *)
Theorem isOpenFor_clock_only p (timeInDate timeOutDate timeInDate' timeOutDate' : Z) :
  JS.toLocaleWeekday timeInDate = JS.toLocaleWeekday timeInDate' →
  minuteOfDay timeInDate = minuteOfDay timeInDate' →
  minuteOfDay timeOutDate = minuteOfDay timeOutDate' →
  isOpenFor timeInDate timeOutDate p = isOpenFor timeInDate' timeOutDate' p.
Proof.
  intros Hday Hstart Hend. unfold isOpenFor. rewrite Hday.
  apply some_ext. intros slot. unfold slotCovers.
  by rewrite (toTimeString_slice5_minute _ _ Hstart), (toTimeString_slice5_minute _ _ Hend).
Qed.

(** X9. A request that fits inside a matched one is matched: on the
    same weekday, a start no earlier in the day and an end no later in
    the day keep every record that the wider request kept. *)
Theorem isOpenFor_narrower p (timeInDate timeOutDate timeInDate' timeOutDate' : Z) :
  epochDayUniform → Forall clockSlot (daysAvailable p) →
  isOpenFor timeInDate timeOutDate p = true →
  JS.toLocaleWeekday timeInDate' = JS.toLocaleWeekday timeInDate →
  minuteOfDay timeInDate <= minuteOfDay timeInDate' →
  minuteOfDay timeOutDate' <= minuteOfDay timeOutDate →
  isOpenFor timeInDate' timeOutDate' p = true.
Proof.
  intros Huniform Hclock Hopen Hday Hstart Hend.
  apply (isOpenFor_covers p _ _ Huniform Hclock) in Hopen
    as (slot & Hslot & Hslotday & opens & closes & Hopens & Hcloses & ? & ?).
  apply (isOpenFor_covers p _ _ Huniform Hclock).
  exists slot. split; [done|]. split; [congruence|].
  exists opens, closes. repeat split; [done|done|lia|lia].
Qed.




End SearchEdges.

Lemma search_needs_comma_witness :
  @findNearbyParkingSpaces utcHost (mondayMorningAt "37.77")
  = Respond (Json 400 (ErrorBody "Invalid location format")).
Proof.
  apply (@search_needs_comma utcHost (mondayMorningAt "37.77") "37.77").
  - reflexivity.
  - discriminate.
  - unfold hasComma. cbn. intros Hin. repeat destruct Hin as [?|Hin]; done.
Defined.

Lemma search_ignores_further_components_witness :
  @findNearbyParkingSpaces utcHost (mondayMorningAt "37.77,-122.42")
  = @findNearbyParkingSpaces utcHost (mondayMorningAt "37.77,-122.42,12,north").
Proof.
  apply (@search_ignores_further_components utcHost _ _
           "37.77,-122.42" "37.77,-122.42,12,north");
    first [reflexivity | discriminate].
Defined.

Lemma isOpenFor_clock_only_witness :
  @isOpenFor utcHost monday1000 monday1200 (garage [mondayOffice])
  = @isOpenFor utcHost monday1000 friday1200 (garage [mondayOffice]).
Proof.
  apply (@isOpenFor_clock_only utcHost); reflexivity.
Defined.

Lemma isOpenFor_narrower_witness :
  @isOpenFor utcHost monday1000 friday1200 (garage [mondayOffice]) = true.
Proof.
  apply (@isOpenFor_narrower utcHost (garage [mondayOffice])
           monday1000 monday1200 monday1000 friday1200 (fixedOffsetHost_uniform 0)).
  - repeat constructor; apply mondayOffice_clock.
  - reflexivity.
  - reflexivity.
  - vm_compute. discriminate.
  - vm_compute. discriminate.
Defined.


(* ================================================================== *)
(** * Properties of the creation of a parking space                    *)
(* ================================================================== *)

Section Creation.

Implicit Types (sv : Services) (db : Database) (body : Body.t).

Lemma isEmptyString_true (field : JS.value) :
  isEmptyString field = true ↔ field = JS.VStr "".
Proof.
  destruct field as [| | | |s|]; cbn; try (split; [done|discriminate]).
  destruct (String.eqb_spec s ""); split; congruence.
Qed.

Lemma requiredFields_empty body :
  JS.some isEmptyString (requiredFields body) = true ↔ JS.VStr "" ∈ requiredFields body.
Proof.
  rewrite some_true. split.
  - intros (field & Hfield & Hempty). by apply isEmptyString_true in Hempty as <-.
  - intros Hfield. exists (JS.VStr ""). by split.
Qed.

Lemma requiredFields_filled body :
  JS.VStr "" ∉ requiredFields body → JS.some isEmptyString (requiredFields body) = false.
Proof. rewrite <- requiredFields_empty. apply not_true_is_false. Qed.

(** A property read throws on null and undefined only. *)
Lemma get_defined (v : JS.value) (k : string) :
  v ≠ JS.VUndefined → v ≠ JS.VNull → JS.get v k = JS.Normal (fieldOf v k).
Proof. by destruct v. Qed.

Lemma mapUrl_defined (images : list JS.value) :
  Forall (λ image, image ≠ JS.VUndefined ∧ image ≠ JS.VNull) images →
  mapUrl images = JS.Normal ((λ image, fieldOf image "url") <$> images).
Proof.
  induction 1 as [|image images [? ?] _ IH]; [done|].
  cbn [mapUrl]. rewrite get_defined by done.
  cbn [mbind JS.completion_bind]. by rewrite IH.
Qed.


(** X12. When the owner's address is not the address of a user, the
    creation throws 400 "Owner not found" after that one lookup: the
    geocoder is not called and nothing is saved. *)
Theorem createParkingSpace_unknown_owner sv db body :
  JS.VStr "" ∉ requiredFields body →
  (length (Body.spotImages body) <= 6)%nat →
  outage sv (CallFindUser (ByEmail (Body.owner body))) = None →
  users sv (ByEmail (Body.owner body)) = None →
  exec sv (createParkingSpace body) db
  = (Thrown (APIError 400 "Owner not found"),
     record (CallFindUser (ByEmail (Body.owner body))) db).
Proof.
  intros Hfilled Hfew Hup Hunknown. unfold createParkingSpace.
  rewrite (requiredFields_filled _ Hfilled).
  rewrite (proj2 (Nat.ltb_ge _ _) Hfew). cbn [exec]. by rewrite Hup, Hunknown.
Qed.

(** X13. A creation that goes through: one lookup of the owner, one
    call to the geocoder, one save, and the answer 201 with the saved
    document.  The document has the owner's id, the coordinates as
    [lng, lat] of what the geocoder found, the normalized schedule (no
    two slots for a day), the [url] of each image and no reservations. *)
Theorem createParkingSpace_created sv db body (user : User.t) (found : JS.value)
    (props : gmap string JS.value) :
  JS.VStr "" ∉ requiredFields body →
  (length (Body.spotImages body) <= 6)%nat →
  (∀ c, outage sv c = None) →
  users sv (ByEmail (Body.owner body)) = Some user →
  geocoder sv (Body.address body) = found →
  found ≠ JS.VUndefined → found ≠ JS.VNull →
  Body.customTimes body = JS.VObj props →
  Forall (λ image, image ≠ JS.VUndefined ∧ image ≠ JS.VNull) (Body.spotImages body) →
  ∃ doc,
    exec sv (createParkingSpace body) db
    = (Sent 201 (mkAPIResponse 201 doc "Parking space created successfully"),
       putNewSpace doc
         (record (CallSaveNewSpace doc)
            (record (CallGetCoordinates (Body.address body))
               (record (CallFindUser (ByEmail (Body.owner body))) db))))
    ∧ NewSpace.owner doc = User._id user
    ∧ NewSpace.coordinates doc = (fieldOf found "lng", fieldOf found "lat")
    ∧ transformCustomTimes (Body.customTimes body) = JS.Normal (NewSpace.daysAvailable doc)
    ∧ NoDup (day <$> NewSpace.daysAvailable doc)
    ∧ NewSpace.spotImages doc = (λ image, fieldOf image "url") <$> Body.spotImages body
    ∧ NewSpace.reservations doc = [].
Proof.
  intros Hfilled Hfew Hup Huser Hfound Hdefined Hnonnull Hschedule Himages.
  pose proof (mapUrl_defined _ Himages) as Hurls.
  unfold createParkingSpace.
  rewrite (requiredFields_filled _ Hfilled), (proj2 (Nat.ltb_ge _ _) Hfew).
  cbn [exec]. rewrite !Hup, Huser. cbn [exec]. rewrite !Hup, Hfound.
  rewrite !get_defined by done. cbn [eval].
  rewrite Hschedule, transformCustomTimes_object, Hurls. cbn [eval exec].
  rewrite !Hup. cbn [exec]. eexists. split; [reflexivity|].
  cbn [NewSpace.owner NewSpace.coordinates NewSpace.daysAvailable
       NewSpace.spotImages NewSpace.reservations].
  do 3 (split; [done|]). split; [|done].
  eapply sublist_NoDup; [apply daysOfWeek_NoDup | apply openSlot_days].
Qed.

(** X14. A body without a schedule passes the required-field check: the
    owner is looked up and the geocoder is called before reading the
    schedule throws a TypeError, and nothing is saved. *)
Theorem createParkingSpace_no_schedule sv db body (user : User.t) :
  JS.VStr "" ∉ requiredFields body →
  (length (Body.spotImages body) <= 6)%nat →
  (∀ c, outage sv c = None) →
  users sv (ByEmail (Body.owner body)) = Some user →
  geocoder sv (Body.address body) ≠ JS.VUndefined →
  geocoder sv (Body.address body) ≠ JS.VNull →
  Body.customTimes body = JS.VUndefined ∨ Body.customTimes body = JS.VNull →
  exec sv (createParkingSpace body) db
  = (Thrown (Uncaught JS.TypeError),
     record (CallGetCoordinates (Body.address body))
       (record (CallFindUser (ByEmail (Body.owner body))) db)).
Proof.
  intros Hfilled Hfew Hup Huser Hdefined Hnonnull Hschedule.
  unfold createParkingSpace.
  rewrite (requiredFields_filled _ Hfilled), (proj2 (Nat.ltb_ge _ _) Hfew).
  cbn [exec]. rewrite !Hup, Huser. cbn [exec]. rewrite !Hup.
  rewrite !get_defined by done. cbn [eval].
  by destruct Hschedule as [-> | ->].
Qed.

End Creation.


Lemma sampleBody_filled (customTimes : JS.value) :
  customTimes ≠ JS.VStr "" → JS.VStr "" ∉ requiredFields (sampleBody customTimes).
Proof.
  intros Hschedule. unfold requiredFields, sampleBody. cbn.
  rewrite !not_elem_of_cons. repeat split; try done. apply not_elem_of_nil.
Qed.

Lemma createParkingSpace_unknown_owner_witness :
  exec (steadyServices (λ _, None) mainStreet imageHost monday1800)
    (createParkingSpace (sampleBody mondayOnly)) emptyDatabase
  = (Thrown (APIError 400 "Owner not found"),
     record (CallFindUser (ByEmail (JS.VStr "ann@example.org"))) emptyDatabase).
Proof.
  apply (createParkingSpace_unknown_owner
           (steadyServices (λ _, None) mainStreet imageHost monday1800)
           emptyDatabase (sampleBody mondayOnly)).
  - by apply sampleBody_filled.
  - cbn. lia.
  - reflexivity.
  - reflexivity.
Defined.

Lemma createParkingSpace_created_witness :
  ∃ doc,
    exec sampleServices (createParkingSpace (sampleBody mondayOnly)) emptyDatabase
    = (Sent 201 (mkAPIResponse 201 doc "Parking space created successfully"),
       putNewSpace doc
         (record (CallSaveNewSpace doc)
            (record (CallGetCoordinates (JS.VStr "1 Main Street"))
               (record (CallFindUser (ByEmail (JS.VStr "ann@example.org")))
                  emptyDatabase))))
    ∧ NewSpace.owner doc = "ann"
    ∧ NewSpace.coordinates doc
      = (JS.VNum (JS.Finite true 122 0), JS.VNum (JS.Finite false 37 0))
    ∧ transformCustomTimes mondayOnly = JS.Normal (NewSpace.daysAvailable doc)
    ∧ NoDup (day <$> NewSpace.daysAvailable doc)
    ∧ NewSpace.spotImages doc = [JS.VStr "front.png"]
    ∧ NewSpace.reservations doc = [].
Proof.
  apply (createParkingSpace_created sampleServices emptyDatabase (sampleBody mondayOnly)
           ann (mainStreet (JS.VStr "1 Main Street"))
           {[ "monday" := JS.VObj nineToFive ]}).
  - by apply sampleBody_filled.
  - cbn. lia.
  - reflexivity.
  - reflexivity.
  - reflexivity.
  - discriminate.
  - discriminate.
  - reflexivity.
  - repeat constructor; discriminate.
Defined.

Lemma createParkingSpace_no_schedule_witness :
  exec sampleServices (createParkingSpace (sampleBody JS.VUndefined)) emptyDatabase
  = (Thrown (Uncaught JS.TypeError),
     record (CallGetCoordinates (JS.VStr "1 Main Street"))
       (record (CallFindUser (ByEmail (JS.VStr "ann@example.org"))) emptyDatabase)).
Proof.
  apply (createParkingSpace_no_schedule sampleServices emptyDatabase
           (sampleBody JS.VUndefined) ann).
  - by apply sampleBody_filled.
  - cbn. lia.
  - reflexivity.
  - reflexivity.
  - discriminate.
  - discriminate.
  - by left.
Defined.

(* ================================================================== *)
(** * Properties of the upload of images                               *)
(* ================================================================== *)

Section Uploads.

Implicit Types (sv : Services) (db : Database) (files : list JS.value).

Lemma recordAll_app (calls calls' : list Call) db :
  recordAll (calls ++ calls') db = recordAll calls' (recordAll calls db).
Proof. unfold recordAll. apply foldl_app. Qed.

(** The loop over a run of files that all upload. *)
Lemma uploadEach_prefix sv files (rest spotImages : list JS.value) db :
  (∀ c, outage sv c = None) →
  Forall (uploads sv) files →
  exec sv (uploadEach (files ++ rest) spotImages) db
  = exec sv
      (uploadEach rest
         (spotImages ++ ((λ file, fieldOf (uploadResult sv file) "secure_url") <$> files)))
      (recordAll (uploadCall <$> files) db).
Proof.
  intros Hup Hfiles. revert spotImages db.
  induction Hfiles as [|file files (? & ? & ? & ?) _ IH]; intros spotImages db.
  - by rewrite app_nil_r.
  - cbn [app uploadEach]. rewrite get_defined by done. cbn [eval exec].
    rewrite Hup. fold (uploadResult sv file).
    rewrite get_defined by done. cbn [eval].
    rewrite IH. csimpl. by rewrite <- app_assoc.
Qed.

(** X15. When every file uploads, the handler makes one upload per
    file, in the order of the files, and answers 200 with the
    [secure_url] of each answer in the same order; without files it
    answers 200 with the empty list and makes no call. *)
Theorem uploadSpotImages_all sv files db :
  (∀ c, outage sv c = None) →
  Forall (uploads sv) files →
  exec sv (uploadSpotImages files) db
  = (Sent 200
       (mkAPIResponse 200
          ((λ file, fieldOf (uploadResult sv file) "secure_url") <$> files)
          "Images uploaded successfully"),
     recordAll (uploadCall <$> files) db).
Proof.
  intros Hup Hfiles. unfold uploadSpotImages.
  rewrite <- (app_nil_r files) at 1.
  by rewrite (uploadEach_prefix _ _ _ _ _ Hup Hfiles).
Qed.

(** X16. The first upload that answers null or undefined ends the
    handler with a TypeError: the files before it have been uploaded,
    the files after it are never sent, and no response lists the
    addresses already obtained. *)
Theorem uploadSpotImages_stops sv (before after : list JS.value) (file : JS.value) db :
  (∀ c, outage sv c = None) →
  Forall (uploads sv) before →
  file ≠ JS.VUndefined → file ≠ JS.VNull →
  uploadResult sv file = JS.VUndefined ∨ uploadResult sv file = JS.VNull →
  exec sv (uploadSpotImages (before ++ file :: after)) db
  = (Thrown (Uncaught JS.TypeError),
     recordAll (uploadCall <$> before ++ [file]) db).
Proof.
  intros Hup Hbefore Hdefined Hnonnull Hresult. unfold uploadSpotImages.
  rewrite (uploadEach_prefix _ _ _ _ _ Hup Hbefore).
  cbn [uploadEach]. rewrite get_defined by done. cbn [eval exec]. rewrite Hup.
  fold (uploadResult sv file).
  rewrite fmap_app, recordAll_app. cbn [fmap list_fmap recordAll foldl].
  by destruct Hresult as [-> | ->].
Qed.

End Uploads.

Lemma uploadSpotImages_all_witness :
  exec sampleServices (uploadSpotImages [file "front.png"; file "back.png"]) emptyDatabase
  = (Sent 200
       (mkAPIResponse 200 [JS.VStr "front.png"; JS.VStr "back.png"]
          "Images uploaded successfully"),
     recordAll [CallUpload (JS.VStr "front.png"); CallUpload (JS.VStr "back.png")]
       emptyDatabase).
Proof.
  apply (uploadSpotImages_all sampleServices [file "front.png"; file "back.png"]).
  - reflexivity.
  - repeat constructor; discriminate.
Defined.

Lemma uploadSpotImages_stops_witness :
  exec sampleServices
    (uploadSpotImages [file "front.png"; file "broken.png"; file "back.png"])
    emptyDatabase
  = (Thrown (Uncaught JS.TypeError),
     recordAll [CallUpload (JS.VStr "front.png"); CallUpload (JS.VStr "broken.png")]
       emptyDatabase).
Proof.
  apply (uploadSpotImages_stops sampleServices [file "front.png"] [file "back.png"]
           (file "broken.png")).
  - reflexivity.
  - repeat constructor; discriminate.
  - discriminate.
  - discriminate.
  - right. reflexivity.
Defined.


(* ================================================================== *)
(** * Properties of the review controller                              *)
(* ================================================================== *)

Section Reviews.

Implicit Types (sv : Services) (db : Database) (req : ReviewRequest.t).

(** The handler once its three reads of the request have gone
    through. *)
Lemma createReview_readable req :
  readable req →
  createReview req
  = FindUser (authorFilter req) (λ user,
      match user with
      | None => Throw (APIError 404 "User not found")
      | Some user =>
          FindListing (ReviewRequest.parkingId req) (λ parkingSpace,
            match parkingSpace with
            | None => Throw (APIError 404 "Parking space not found")
            | Some parkingSpace =>
                FindReservation (ReviewRequest.reservationId req) (λ reservation,
                  match reservation with
                  | None => Throw (APIError 404 "Reservation not found")
                  | Some reservation =>
                      Now (λ now,
                        if date_gt (Reservation.endTime reservation) (Some now) then
                          Throw (APIError 400 "Reservation has not ended yet")
                        else
                          NewReviewId (λ id,
                            SaveReview (reviewOf req user id)
                              (SaveListing (withReview parkingSpace id)
                                 (SaveReservation (closedBy reservation id)
                                    (Send 201
                                       (mkAPIResponse 201 "Review created successfully"
                                          (reviewOf req user id)))))))
                  end)
            end)
      end).
Proof.
  intros (? & ? & ? & ?). unfold createReview, authorFilter.
  by rewrite !get_defined.
Qed.

(** An unreadable request throws before any call. *)
Lemma createReview_unreadable req :
  ¬ readable req → createReview req = Throw (Uncaught JS.TypeError).
Proof.
  unfold readable, createReview. intros Hbad.
  destruct (ReviewRequest.body req); destruct (ReviewRequest.user req);
    try reflexivity; destruct Hbad; repeat split; discriminate.
Qed.

Lemma readable_dec req : readable req ∨ ¬ readable req.
Proof.
  unfold readable.
  destruct (ReviewRequest.body req); destruct (ReviewRequest.user req);
    first [left; repeat split; discriminate | right; intros (? & ? & ? & ?); done].
Qed.

Lemma listing_reread (m : gmap ObjectId Listing.t) (l : Listing.t) (id key : ObjectId) :
  Listing.id l = key →
  <[Listing.id (withReview l id) := withReview l id]> m !! key = Some (withReview l id).
Proof. intros <-. apply lookup_insert_eq. Qed.

Lemma reservation_reread (m : gmap ObjectId Reservation.t) (r : Reservation.t)
    (id key : ObjectId) :
  Reservation._id r = key →
  <[Reservation._id (closedBy r id) := closedBy r id]> m !! key = Some (closedBy r id).
Proof. intros <-. apply lookup_insert_eq. Qed.

(** What the database looks like after a review has gone through. *)
Lemma createReview_sent_inv sv db req status body db' :
  exec sv (createReview req) db = (Sent status body, db') →
  ∃ author l r,
    users sv (authorFilter req) = Some author
    ∧ listings db !! ReviewRequest.parkingId req = Some l
    ∧ reservations db !! ReviewRequest.reservationId req = Some r
    ∧ date_gt (Reservation.endTime r) (Some (clock sv)) = false
    ∧ status = 201
    ∧ body = mkAPIResponse 201 "Review created successfully"
               (reviewOf req author (objectIds sv (issued db)))
    ∧ db' = putReservation (closedBy r (objectIds sv (issued db)))
              (record (CallSaveReservation (closedBy r (objectIds sv (issued db))))
              (putListing (withReview l (objectIds sv (issued db)))
              (record (CallSaveListing (withReview l (objectIds sv (issued db))))
              (putReview (reviewOf req author (objectIds sv (issued db)))
              (record (CallSaveReview (reviewOf req author (objectIds sv (issued db))))
              (drawId
              (record (CallFindReservation (ReviewRequest.reservationId req))
              (record (CallFindListing (ReviewRequest.parkingId req))
              (record (CallFindUser (authorFilter req)) db))))))))).
Proof.
  destruct (readable_dec req) as [Hreadable|Hbad];
    [|by rewrite (createReview_unreadable _ Hbad)].
  rewrite (createReview_readable _ Hreadable). cbn [exec].
  destruct (outage sv (CallFindUser _)); [done|].
  destruct (users sv (authorFilter req)) as [author|]; [|done]. cbn [exec].
  destruct (outage sv (CallFindListing _)); [done|]. cbn [record listings].
  destruct (listings db !! ReviewRequest.parkingId req) as [l|]; [|done]. cbn [exec].
  destruct (outage sv (CallFindReservation _)); [done|]. cbn [record reservations].
  destruct (reservations db !! ReviewRequest.reservationId req) as [r|]; [|done].
  cbn [exec]. destruct (date_gt _ _) eqn:Hended; [done|]. cbn [exec].
  cbn [drawId record putReview putListing issued].
  destruct (outage sv (CallSaveReview _)); [done|].
  destruct (outage sv (CallSaveListing _)); [done|].
  destruct (outage sv (CallSaveReservation _)); [done|].
  intros [= <- <- <-]. exists author, l, r. repeat split; done.
Qed.

(** A review goes through when nothing fails and the three documents
    exist and the reservation has ended. *)
Lemma createReview_accepted sv db req (author : User.t) (l : Listing.t) (r : Reservation.t) :
  readable req →
  (∀ c, outage sv c = None) →
  users sv (authorFilter req) = Some author →
  listings db !! ReviewRequest.parkingId req = Some l →
  reservations db !! ReviewRequest.reservationId req = Some r →
  date_gt (Reservation.endTime r) (Some (clock sv)) = false →
  ∃ db',
    exec sv (createReview req) db
    = (Sent 201 (mkAPIResponse 201 "Review created successfully"
                   (reviewOf req author (objectIds sv (issued db)))), db').
Proof.
  intros Hreadable Hup Hauthor Hl Hr Hended.
  rewrite (createReview_readable _ Hreadable). cbn [exec].
  rewrite !Hup, Hauthor. cbn [exec record listings]. rewrite !Hup, Hl.
  cbn [exec record reservations]. rewrite !Hup, Hr. cbn [exec]. rewrite Hended.
  cbn [exec]. rewrite !Hup. by eexists.
Qed.

(** X17. A review that is turned down has written nothing: whenever
    [createReview] ends by throwing - a TypeError on an unreadable
    request, a 404 for a missing user, parking space or reservation,
    the 400 for a reservation that has not ended - the three
    collections are as they were. *)
Theorem createReview_thrown sv db req (e : Failure) db' :
  exec sv (createReview req) db = (Thrown e, db') →
  listings db' = listings db ∧ reservations db' = reservations db
  ∧ reviews db' = reviews db ∧ newSpaces db' = newSpaces db.
Proof.
  destruct (readable_dec req) as [Hreadable|Hbad].
  2: { rewrite (createReview_unreadable _ Hbad). cbn. by intros [= <- <-]. }
  rewrite (createReview_readable _ Hreadable). cbn [exec].
  destruct (outage sv (CallFindUser _)); [done|].
  destruct (users sv (authorFilter req)) as [author|]; [|by intros [= <- <-]].
  cbn [exec]. destruct (outage sv (CallFindListing _)); [done|]. cbn [record listings].
  destruct (listings db !! ReviewRequest.parkingId req) as [l|]; [|by intros [= <- <-]].
  cbn [exec]. destruct (outage sv (CallFindReservation _)); [done|].
  cbn [record reservations].
  destruct (reservations db !! ReviewRequest.reservationId req) as [r|];
    [|by intros [= <- <-]].
  cbn [exec]. destruct (date_gt _ _); [by intros [= <- <-]|]. cbn [exec].
  destruct (outage sv (CallSaveReview _)); [done|].
  destruct (outage sv (CallSaveListing _)); [done|].
  by destruct (outage sv (CallSaveReservation _)).
Qed.

(** X18. The checks of [createReview] come in a fixed order: the user,
    then the parking space, then the reservation, then its end.  With
    every collaborator up and a readable request, an unknown user is
    answered "User not found" whatever the ids are; a known user with
    an unknown parking space "Parking space not found"; and so on; and
    a reservation that ends at the very instant of the request, or that
    has no end time, counts as ended. *)
Theorem createReview_checks sv db req :
  readable req → (∀ c, outage sv c = None) →
  (users sv (authorFilter req) = None →
   (exec sv (createReview req) db).1 = Thrown (APIError 404 "User not found"))
  ∧ (is_Some (users sv (authorFilter req)) →
     listings db !! ReviewRequest.parkingId req = None →
     (exec sv (createReview req) db).1 = Thrown (APIError 404 "Parking space not found"))
  ∧ (is_Some (users sv (authorFilter req)) →
     is_Some (listings db !! ReviewRequest.parkingId req) →
     reservations db !! ReviewRequest.reservationId req = None →
     (exec sv (createReview req) db).1 = Thrown (APIError 404 "Reservation not found"))
  ∧ (∀ r ends,
       is_Some (users sv (authorFilter req)) →
       is_Some (listings db !! ReviewRequest.parkingId req) →
       reservations db !! ReviewRequest.reservationId req = Some r →
       Reservation.endTime r = Some ends → clock sv < ends →
       (exec sv (createReview req) db).1
       = Thrown (APIError 400 "Reservation has not ended yet"))
  ∧ (∀ r,
       is_Some (users sv (authorFilter req)) →
       is_Some (listings db !! ReviewRequest.parkingId req) →
       reservations db !! ReviewRequest.reservationId req = Some r →
       Reservation.endTime r = None ∨ (∃ ends, Reservation.endTime r = Some ends
                                               ∧ ends <= clock sv) →
       ∃ body, (exec sv (createReview req) db).1 = Sent 201 body).
Proof.
  intros Hreadable Hup. rewrite (createReview_readable _ Hreadable). cbn [exec].
  rewrite !Hup. split; [by intros ->|].
  split; [intros [author ->] Hl; cbn [exec record listings]; by rewrite !Hup, Hl|].
  split.
  { intros [author ->] [l Hl] Hr. cbn [exec record listings]. rewrite !Hup, Hl.
    cbn [exec record reservations]. by rewrite !Hup, Hr. }
  split.
  - intros r ends [author ->] [l Hl] Hr Hends Hlater.
    cbn [exec record listings]. rewrite !Hup, Hl.
    cbn [exec record reservations]. rewrite !Hup, Hr. cbn [exec].
    rewrite Hends. cbn [date_gt]. by rewrite (proj2 (Z.ltb_lt _ _) Hlater).
  - intros r [author ->] [l Hl] Hr Hended.
    cbn [exec record listings]. rewrite !Hup, Hl.
    cbn [exec record reservations]. rewrite !Hup, Hr. cbn [exec].
    assert (Hgt : date_gt (Reservation.endTime r) (Some (clock sv)) = false).
    { destruct Hended as [->|(ends & -> & Hle)]; [done|].
      cbn. by apply Z.ltb_ge. }
    rewrite Hgt. cbn [exec]. rewrite !Hup. by eexists.
Qed.

(** X19. What a review that goes through has done: it has stored the
    review under the id that was drawn, with the author's id, the two
    ids of the request and the rating and comment of the body; it has
    put that id at the end of the reviews of the parking space; it has
    set the reservation's review to that id and its status to
    "Completed"; and it has touched no other document. *)
Theorem createReview_sent sv db req (status : Z) (body : APIResponse string Review.t) db' :
  exec sv (createReview req) db = (Sent status body, db') →
  ∃ author l r,
    users sv (authorFilter req) = Some author
    ∧ listings db !! ReviewRequest.parkingId req = Some l
    ∧ reservations db !! ReviewRequest.reservationId req = Some r
    ∧ status = 201
    ∧ third body = reviewOf req author (objectIds sv (issued db))
    ∧ reviews db' = <[objectIds sv (issued db) := third body]> (reviews db)
    ∧ listings db'
      = <[Listing.id l := withReview l (objectIds sv (issued db))]> (listings db)
    ∧ reservations db'
      = <[Reservation._id r := closedBy r (objectIds sv (issued db))]> (reservations db)
    ∧ journal db'
      = journal db ++ reviewCalls req author l r (objectIds sv (issued db)).
Proof.
  intros (author & l & r & Hauthor & Hl & Hr & _ & -> & -> & ->)%createReview_sent_inv.
  exists author, l, r. do 5 (split; [done|]). cbn.
  do 3 (split; [done|]). by rewrite <- !app_assoc.
Qed.

Lemma getReviews_found sv db (spotId : string) (l : Listing.t) :
  outage sv (CallFindListingWithReviews spotId) = None →
  listings db !! spotId = Some l →
  exec sv (getReviews spotId) db
  = (Sent 200 (mkAPIResponse 200 "Reviews retrieved successfully"
                 (populate db (Listing.reviews l))),
     record (CallFindListingWithReviews spotId) db).
Proof. intros Hup Hl. unfold getReviews. cbn [exec]. by rewrite Hup, Hl. Qed.

(** X20. A review can be read back: after [createReview] has answered
    201 for a parking space that is stored under its own id,
    [getReviews] for that parking space answers 200 with a list that
    ends with the new review. *)
Theorem review_round_trip sv db req (status : Z) (body : APIResponse string Review.t) db' :
  exec sv (createReview req) db = (Sent status body, db') →
  (∀ l, listings db !! ReviewRequest.parkingId req = Some l →
        Listing.id l = ReviewRequest.parkingId req) →
  outage sv (CallFindListingWithReviews (ReviewRequest.parkingId req)) = None →
  ∃ earlier,
    exec sv (getReviews (ReviewRequest.parkingId req)) db'
    = (Sent 200 (mkAPIResponse 200 "Reviews retrieved successfully"
                   (earlier ++ [third body])),
       record (CallFindListingWithReviews (ReviewRequest.parkingId req)) db').
Proof.
  intros Hsent Hkey Hup.
  apply createReview_sent_inv in Hsent
    as (author & l & r & _ & Hl & _ & _ & _ & -> & Hdb').
  set (id := objectIds sv (issued db)) in *.
  assert (Hfound : listings db' !! ReviewRequest.parkingId req = Some (withReview l id)).
  { rewrite Hdb'. apply listing_reread, Hkey, Hl. }
  assert (Hreview : reviews db' !! id = Some (reviewOf req author id)).
  { rewrite Hdb'. apply lookup_insert_eq. }
  clear Hdb'. exists (populate db' (Listing.reviews l)).
  rewrite (getReviews_found _ _ _ _ Hup Hfound). do 3 f_equal.
  unfold populate. cbn [withReview Listing.reviews third].
  rewrite omap_app. cbn [omap list_omap]. by rewrite Hreview.
Qed.

(** X21. Nothing keeps a reservation from being reviewed again: with
    every collaborator up and the two documents stored under their own
    ids, the request that was answered 201 is answered 201 a second
    time, with the next id; the parking space then lists both ids, the
    reservation points to the second, and when the two ids differ both
    reviews are stored. *)
Theorem createReview_again sv db req (status : Z) (body : APIResponse string Review.t) db' :
  exec sv (createReview req) db = (Sent status body, db') →
  readable req → (∀ c, outage sv c = None) →
  (∀ l, listings db !! ReviewRequest.parkingId req = Some l →
        Listing.id l = ReviewRequest.parkingId req) →
  (∀ r, reservations db !! ReviewRequest.reservationId req = Some r →
        Reservation._id r = ReviewRequest.reservationId req) →
  objectIds sv (issued db) ≠ objectIds sv (S (issued db)) →
  ∃ body' db'' l l'' r'',
    exec sv (createReview req) db' = (Sent 201 body', db'')
    ∧ Review._id (third body') = objectIds sv (S (issued db))
    ∧ listings db !! ReviewRequest.parkingId req = Some l
    ∧ listings db'' !! ReviewRequest.parkingId req = Some l''
    ∧ Listing.reviews l''
      = Listing.reviews l ++ [Review._id (third body); Review._id (third body')]
    ∧ reservations db'' !! ReviewRequest.reservationId req = Some r''
    ∧ Reservation.review r'' = Some (Review._id (third body'))
    ∧ reviews db'' !! Review._id (third body) = Some (third body)
    ∧ reviews db'' !! Review._id (third body') = Some (third body').
Proof.
  intros Hfirst Hreadable Hup Hlkey Hrkey Hfresh.
  apply createReview_sent_inv in Hfirst
    as (author & l & r & Hauthor & Hl & Hr & Hended & -> & -> & ->).
  set (id1 := objectIds sv (issued db)) in *.
  set (id2 := objectIds sv (S (issued db))) in *.
  set (db' := putReservation _ _).
  assert (Hl' : listings db' !! ReviewRequest.parkingId req = Some (withReview l id1)).
  { unfold db'. cbn [listings putReservation record putListing].
    apply listing_reread, Hlkey, Hl. }
  assert (Hr' : reservations db' !! ReviewRequest.reservationId req = Some (closedBy r id1)).
  { unfold db'. cbn [reservations putReservation]. apply reservation_reread, Hrkey, Hr. }
  destruct (createReview_accepted sv db' req author _ _ Hreadable Hup Hauthor Hl' Hr' Hended)
    as [db'' Hsecond].
  pose proof Hsecond as Hinv.
  apply createReview_sent_inv in Hinv
    as (author' & l' & r' & Hauthor' & Hl'' & Hr'' & _ & _ & _ & ->).
  rewrite Hauthor in Hauthor'. injection Hauthor' as <-.
  rewrite Hl' in Hl''. injection Hl'' as <-.
  rewrite Hr' in Hr''. injection Hr'' as <-.
  change (issued db') with (S (issued db)) in *. fold id2 in Hsecond |- *.
  eexists _, _, l, (withReview (withReview l id1) id2), (closedBy (closedBy r id1) id2).
  split; [exact Hsecond|]. cbn [third Review._id reviewOf].
  split; [done|]. split; [done|]. split.
  { cbn [listings putReservation record putListing].
    apply (listing_reread _ (withReview l id1)). exact (Hlkey l Hl). }
  split; [cbn; by rewrite <- app_assoc|]. split.
  { cbn [reservations putReservation].
    apply (reservation_reread _ (closedBy r id1)). exact (Hrkey r Hr). }
  split; [done|]. split.
  - cbn. rewrite lookup_insert_ne by (fold id1 id2; congruence).
    unfold db'. cbn. apply lookup_insert_eq.
  - cbn. apply lookup_insert_eq.
Qed.

(** X22. The three saves are not one: when the save of the parking
    space fails after the review has been saved, the handler ends with
    that failure, the review stays in its collection, and neither the
    parking space nor the reservation refers to it. *)
Theorem createReview_half_done sv db req (author : User.t) (l : Listing.t)
    (r : Reservation.t) (reason : string) :
  readable req →
  outage sv (CallFindUser (authorFilter req)) = None →
  outage sv (CallFindListing (ReviewRequest.parkingId req)) = None →
  outage sv (CallFindReservation (ReviewRequest.reservationId req)) = None →
  users sv (authorFilter req) = Some author →
  listings db !! ReviewRequest.parkingId req = Some l →
  reservations db !! ReviewRequest.reservationId req = Some r →
  date_gt (Reservation.endTime r) (Some (clock sv)) = false →
  outage sv (CallSaveReview (reviewOf req author (objectIds sv (issued db)))) = None →
  outage sv (CallSaveListing (withReview l (objectIds sv (issued db)))) = Some reason →
  ∃ db',
    exec sv (createReview req) db = (Rejected reason, db')
    ∧ reviews db' !! objectIds sv (issued db)
      = Some (reviewOf req author (objectIds sv (issued db)))
    ∧ listings db' = listings db
    ∧ reservations db' = reservations db.
Proof.
  intros Hreadable Hup1 Hup2 Hup3 Hauthor Hl Hr Hended Hup4 Hdown.
  rewrite (createReview_readable _ Hreadable). cbn [exec].
  rewrite Hup1, Hauthor. cbn [exec record listings]. rewrite Hup2, Hl.
  cbn [exec record reservations]. rewrite Hup3, Hr. cbn [exec]. rewrite Hended.
  cbn [exec drawId record issued]. rewrite Hup4. cbn [putReview]. rewrite Hdown.
  eexists. split; [reflexivity|]. cbn. split; [apply lookup_insert_eq|done].
Qed.

End Reviews.

(** ** The review controller on sample requests *)

Lemma annReviews_readable : readable annReviews.
Proof. repeat split; discriminate. Qed.

Lemma bookedDatabase_listing (l : Listing.t) :
  listings bookedDatabase !! ReviewRequest.parkingId annReviews = Some l →
  Listing.id l = ReviewRequest.parkingId annReviews.
Proof. intros Hl. vm_compute in Hl. injection Hl as <-. reflexivity. Qed.

Lemma bookedDatabase_reservation (r : Reservation.t) :
  reservations bookedDatabase !! ReviewRequest.reservationId annReviews = Some r →
  Reservation._id r = ReviewRequest.reservationId annReviews.
Proof. intros Hr. vm_compute in Hr. injection Hr as <-. reflexivity. Qed.

Lemma createReview_thrown_witness :
  let db' := (exec sampleServices (createReview strangerReviews) bookedDatabase).2 in
  listings db' = listings bookedDatabase ∧ reservations db' = reservations bookedDatabase
  ∧ reviews db' = reviews bookedDatabase ∧ newSpaces db' = newSpaces bookedDatabase.
Proof.
  intros db'.
  apply (createReview_thrown sampleServices bookedDatabase strangerReviews
           (APIError 404 "User not found") db').
  reflexivity.
Defined.

Lemma createReview_checks_witness :
  (exec sampleServices (createReview strangerReviews) bookedDatabase).1
  = Thrown (APIError 404 "User not found")
  ∧ ∃ body, (exec sampleServices (createReview annReviews) bookedDatabase).1 = Sent 201 body.
Proof.
  split.
  - apply (createReview_checks sampleServices bookedDatabase strangerReviews).
    + repeat split; discriminate.
    + reflexivity.
    + reflexivity.
  - apply (createReview_checks sampleServices bookedDatabase annReviews
             annReviews_readable (λ _, eq_refl))
      with (r := booking).
    + by eexists.
    + by eexists.
    + reflexivity.
    + right. exists monday1200. split; [reflexivity|]. vm_compute. discriminate.
Defined.

Lemma createReview_sent_witness :
  let db' := (exec sampleServices (createReview annReviews) bookedDatabase).2 in
  ∃ author l r,
    users sampleServices (authorFilter annReviews) = Some author
    ∧ listings bookedDatabase !! "garage" = Some l
    ∧ reservations bookedDatabase !! "booking" = Some r
    ∧ 201 = 201
    ∧ annsReview = reviewOf annReviews author "review"
    ∧ reviews db' = <["review" := annsReview]> (reviews bookedDatabase)
    ∧ listings db' = <[Listing.id l := withReview l "review"]> (listings bookedDatabase)
    ∧ reservations db'
      = <[Reservation._id r := closedBy r "review"]> (reservations bookedDatabase)
    ∧ journal db' = journal bookedDatabase ++ reviewCalls annReviews author l r "review".
Proof.
  intros db'.
  apply (createReview_sent sampleServices bookedDatabase annReviews 201
           (mkAPIResponse 201 "Review created successfully" annsReview) db').
  reflexivity.
Defined.

Lemma review_round_trip_witness :
  let db' := (exec sampleServices (createReview annReviews) bookedDatabase).2 in
  ∃ earlier,
    exec sampleServices (getReviews "garage") db'
    = (Sent 200 (mkAPIResponse 200 "Reviews retrieved successfully"
                   (earlier ++ [annsReview])),
       record (CallFindListingWithReviews "garage") db').
Proof.
  intros db'.
  apply (review_round_trip sampleServices bookedDatabase annReviews 201
           (mkAPIResponse 201 "Review created successfully" annsReview) db').
  - reflexivity.
  - apply bookedDatabase_listing.
  - reflexivity.
Defined.

Lemma createReview_again_witness :
  let db' := (exec sampleServices (createReview annReviews) bookedDatabase).2 in
  ∃ body' db'' l l'' r'',
    exec sampleServices (createReview annReviews) db' = (Sent 201 body', db'')
    ∧ Review._id (third body') = "review|"
    ∧ listings bookedDatabase !! "garage" = Some l
    ∧ listings db'' !! "garage" = Some l''
    ∧ Listing.reviews l'' = Listing.reviews l ++ ["review"; Review._id (third body')]
    ∧ reservations db'' !! "booking" = Some r''
    ∧ Reservation.review r'' = Some (Review._id (third body'))
    ∧ reviews db'' !! "review" = Some annsReview
    ∧ reviews db'' !! Review._id (third body') = Some (third body').
Proof.
  intros db'.
  apply (createReview_again sampleServices bookedDatabase annReviews 201
           (mkAPIResponse 201 "Review created successfully" annsReview) db').
  - reflexivity.
  - apply annReviews_readable.
  - reflexivity.
  - apply bookedDatabase_listing.
  - apply bookedDatabase_reservation.
  - discriminate.
Defined.

Lemma createReview_half_done_witness :
  ∃ db',
    exec listingsReadOnly (createReview annReviews) bookedDatabase
    = (Rejected "listing not saved", db')
    ∧ reviews db' !! "review" = Some annsReview
    ∧ listings db' = listings bookedDatabase
    ∧ reservations db' = reservations bookedDatabase.
Proof.
  apply (createReview_half_done listingsReadOnly bookedDatabase annReviews
           ann garageListing booking "listing not saved");
    first [apply annReviews_readable | reflexivity].
Defined.
